(** * Platform specialisation of the NativeScript webpack5 configuration

    A shallow embedding of [packages/webpack5/src/configuration/base.ts]
    and of the React flavour that runs on top of it, restricted to the
    parts that decide which files a build for one platform can see:

    - the [resolve.extensions] set (lines 195-221 of base.ts, line 15 of
      the React configuration),
    - the two [ContextExclusionPlugin] patterns (lines 423-439),
    - the [postcss-import] resolver for [@import] (lines 343-369),
    - the order in which the platform is obtained and used (lines 32-39).

    JavaScript strings are [string]s, a webpack-chain [ChainedSet] is the
    list of its members in insertion order, a [RegExp] is the syntax tree
    of its pattern run by a backtracking matcher written with
    continuations as in ECMA-262, and a [throw] is the [Thrown] outcome of
    a small exception monad that keeps the state reached so far. *)

From Stdlib Require Import String Ascii List Bool Arith Lia.
Import ListNotations.

Open Scope string_scope.
Open Scope list_scope.

Notation "x |> f" := (f x) (at level 45, left associativity, only parsing).

(** ** ECMAScript strings *)

Module JS.

(** [s.startsWith(pat)], used by the search primitives below. *)
Fixpoint startsWith (pat s : string) : bool :=
  match pat, s with
  | EmptyString, _ => true
  | String _ _, EmptyString => false
  | String a pat', String b s' => Ascii.eqb a b && startsWith pat' s'
  end.

(** [s.includes(pat)]. *)
Fixpoint includes (s pat : string) : bool :=
  startsWith pat s
  || match s with
     | EmptyString => false
     | String _ s' => includes s' pat
     end.

(** [s.indexOf(pat)], [None] standing for [-1]. *)
Fixpoint indexOf (s pat : string) : option nat :=
  if startsWith pat s then Some 0
  else match s with
       | EmptyString => None
       | String _ s' => option_map S (indexOf s' pat)
       end.

(** GetSubstitution of ECMA-262 for a string pattern: there are no
    captures, so only [$$], [$&], [$`] and [$'] are expanded. *)
Fixpoint getSubstitution (matched before after template : string) : string :=
  match template with
  | EmptyString => EmptyString
  | String c rest =>
      if Ascii.eqb c "$" then
        match rest with
        | EmptyString => String c EmptyString
        | String d rest' =>
            if Ascii.eqb d "$" then
              String "$" (getSubstitution matched before after rest')
            else if Ascii.eqb d "&" then
              matched ++ getSubstitution matched before after rest'
            else if Ascii.eqb d "`" then
              before ++ getSubstitution matched before after rest'
            else if Ascii.eqb d "'" then
              after ++ getSubstitution matched before after rest'
            else
              String c (String d (getSubstitution matched before after rest'))
        end
      else String c (getSubstitution matched before after rest)
  end.

(** [s.replace(searchValue, replaceValue)] with a string pattern: the
    first occurrence only. *)
Definition replace (s searchValue replaceValue : string) : string :=
  match indexOf s searchValue with
  | None => s
  | Some pos =>
      let stop := pos + String.length searchValue in
      let before := substring 0 pos s in
      let after := substring stop (String.length s - stop) s in
      before ++ getSubstitution searchValue before after replaceValue ++ after
  end.

(** [arr.join(sep)]. *)
Definition join (sep : string) (arr : list string) : string :=
  String.concat sep arr.

(** [arr.filter(f)] is [List.filter]; [a !== b] on strings: *)
Definition strictNe (a b : string) : bool := negb (String.eqb a b).

End JS.

(** ** webpack-chain's ChainedSet

    The class wraps a JavaScript [Set], which iterates in insertion order
    and ignores the insertion of a member it already has. *)

Module ChainedSet.

Definition t := list string.

Definition empty : t := [].

Definition has (value : string) (store : t) : bool :=
  existsb (String.eqb value) store.

(** [this.store.add(value)] *)
Definition add (value : string) (store : t) : t :=
  if has value store then store else store ++ [value].

(** [new Set(iterable)] *)
Definition ofArray (arr : list string) : t :=
  fold_left (fun store value => add value store) arr empty.

(** [values() { return [...this.store] }] *)
Definition values (store : t) : list string := store.

(** [prepend(value) { this.store = new Set([value, ...this.store]) }] *)
Definition prepend (value : string) (store : t) : t :=
  ofArray (value :: values store).

(** [clear() { this.store.clear() }] *)
Definition clear (store : t) : t := empty.

(** [merge(arr) { this.store = new Set([...this.store, ...arr]) }] *)
Definition merge (arr : list string) (store : t) : t :=
  ofArray (values store ++ arr).

End ChainedSet.

(** ** resolve.extensions (base.ts, lines 195-221) *)

Module Extensions.

Import ChainedSet.

(** The template literal [`.${platform}.ts`] and its siblings. *)
Definition qualified (platform e : string) : string :=
  "." ++ platform ++ "." ++ e.

Definition generic (e : string) : string := "." ++ e.

(** Lines 195-207: the twelve chained [add] calls. *)
Definition addExtensions (platform : string) (extensions : t) : t :=
  extensions
  |> add ("." ++ platform ++ ".ts")
  |> add ".ts"
  |> add ("." ++ platform ++ ".js")
  |> add ".js"
  |> add ("." ++ platform ++ ".mjs")
  |> add ".mjs"
  |> add ("." ++ platform ++ ".css")
  |> add ".css"
  |> add ("." ++ platform ++ ".scss")
  |> add ".scss"
  |> add ("." ++ platform ++ ".json")
  |> add ".json".

(** Lines 212-218: the [forEach] that pushes every extension and, after
    an extension that mentions visionos, its ios spelling. *)
Definition withIosFallback (extensions : list string) : list string :=
  fold_left
    (fun newExtensions ext =>
       let newExtensions := newExtensions ++ [ext] in
       if JS.includes ext "visionos"
       then newExtensions ++ [JS.replace ext "visionos" "ios"]
       else newExtensions)
    extensions [].

(** Lines 209-221. *)
Definition aliasExtensions (platform : string) (extensions : t) : t :=
  if String.eqb platform "visionos" then
    let newExtensions := withIosFallback (values extensions) in
    merge newExtensions (clear extensions)
  else extensions.

(** Lines 195-221 on the extension set of the incoming configuration. *)
Definition resolveExtensions (platform : string) (extensions : t) : t :=
  aliasExtensions platform (addExtensions platform extensions).

(** The generic extensions of lines 195-207, in the order of the calls. *)
Definition genericExtensions : list string :=
  ["ts"; "js"; "mjs"; "css"; "scss"; "json"].

(** The chain of lines 195-207 for an arbitrary list of generic
    extensions: for each one the platform-qualified [add], then the
    generic [add].  [addExtensions] is its instance at
    [genericExtensions] (lemma [addExtensions_generic]). *)
Definition addExtensionsOf (platform : string) (exts : list string)
    (extensions : t) : t :=
  fold_left
    (fun store e => store |> add (qualified platform e) |> add (generic e))
    exts extensions.

(** The extension list a fresh configuration gets for [exts]. *)
Definition buildExtensionList (platform : string) (exts : list string) : list string :=
  values (aliasExtensions platform (addExtensionsOf platform exts empty)).

(** Line 15 of the React configuration, which runs after base:
    [extensions.prepend('.tsx').prepend(`.${platform}.tsx`)]. *)
Definition reactExtensions (platform : string) (extensions : t) : t :=
  extensions
  |> prepend ".tsx"
  |> prepend ("." ++ platform ++ ".tsx").

End Extensions.

(** ** Regular expressions

    [new RegExp(source)] parses the pattern; [re.test(s)] searches [s] for
    a match starting at any index.  The fragment covers what the two
    exclusion patterns are written in: literal characters, [\.] and other
    escaped syntax characters, [\w], [.], groups, [|], [*], [+] and [$].
    A pattern outside the fragment is not given a meaning ([None]). *)

Module RegExp.

Inductive regex : Type :=
| Empty                       (* the empty alternative *)
| Chr (c : ascii)             (* a pattern character or identity escape *)
| AnyChar                     (* [.] *)
| WordChar                    (* [\w] *)
| EndAnchor                   (* [$], no multiline flag *)
| Seq (r1 r2 : regex)
| Alt (r1 r2 : regex)
| Star (r : regex)
| Plus (r : regex)
| Group (r : regex).          (* a capturing group *)

Definition between (lo hi : nat) (c : ascii) : bool :=
  let n := nat_of_ascii c in ((lo <=? n) && (n <=? hi))%nat.

(** [\w] is [A-Za-z0-9_]. *)
Definition isWordChar (c : ascii) : bool :=
  between 48 57 c || between 65 90 c || between 97 122 c || Ascii.eqb c "_".

(** [.] matches everything but a line terminator. *)
Definition isLineTerminator (c : ascii) : bool :=
  Ascii.eqb c "010" || Ascii.eqb c "013".

Definition oneChar (p : ascii -> bool) (s : string) (k : string -> bool) : bool :=
  match s with
  | EmptyString => false
  | String c s' => p c && k s'
  end.

(** RepeatMatcher with minimum 0: either continue, or run one more
    iteration, which is rejected when it consumed nothing.  An iteration
    consumes a character, so [fuel = length s] is never exhausted. *)
Fixpoint star (m : string -> (string -> bool) -> bool) (fuel : nat)
    (s : string) (k : string -> bool) : bool :=
  match fuel with
  | O => k s
  | S fuel' =>
      m s (fun s' => (String.length s' <? String.length s)%nat && star m fuel' s' k)
      || k s
  end.

(** The matcher of ECMA-262: [run r s k] says whether [r] can match a
    prefix of [s] so that the continuation [k] accepts what is left. *)
Fixpoint run (r : regex) (s : string) (k : string -> bool) : bool :=
  match r with
  | Empty => k s
  | Chr c => oneChar (Ascii.eqb c) s k
  | AnyChar => oneChar (fun c => negb (isLineTerminator c)) s k
  | WordChar => oneChar isWordChar s k
  | EndAnchor => match s with EmptyString => k s | String _ _ => false end
  | Seq r1 r2 => run r1 s (fun s' => run r2 s' k)
  | Alt r1 r2 => run r1 s k || run r2 s k
  | Star r' => star (run r') (String.length s) s k
  | Plus r' => run r' s (fun s' => star (run r') (String.length s') s' k)
  | Group r' => run r' s k
  end.

(** [re.test(s)]: a match may start at any index, the end included. *)
Fixpoint test (re : regex) (s : string) : bool :=
  run re s (fun _ => true)
  || match s with
     | EmptyString => false
     | String _ s' => test re s'
     end.

(** *** The pattern parser *)

Inductive token : Type :=
| TChar (c : ascii)
| TDot | TDollar | TOpen | TClose | TBar | TStar | TPlus | TBackslash
| TOther.                     (* [^ ? [ ] { }]: outside the fragment *)

Definition classify (c : ascii) : token :=
  if Ascii.eqb c "." then TDot
  else if Ascii.eqb c "$" then TDollar
  else if Ascii.eqb c "(" then TOpen
  else if Ascii.eqb c ")" then TClose
  else if Ascii.eqb c "|" then TBar
  else if Ascii.eqb c "*" then TStar
  else if Ascii.eqb c "+" then TPlus
  else if Ascii.eqb c "\" then TBackslash
  else if Ascii.eqb c "^" || Ascii.eqb c "?" || Ascii.eqb c "["
          || Ascii.eqb c "]" || Ascii.eqb c "{" || Ascii.eqb c "}" then TOther
  else TChar c.

(** The character after a backslash: [\w], or an identity escape of a
    syntax character. *)
Definition escape (c : ascii) : option regex :=
  if Ascii.eqb c "w" then Some WordChar
  else match classify c with
       | TChar _ => if Ascii.eqb c "/" then Some (Chr c) else None
       | _ => Some (Chr c)
       end.

(** A group under construction: the alternatives already closed by a
    [|] and the terms of the current one, both latest first. *)
Record frame : Type := { alts : list regex; cur : list regex }.

Definition emptyFrame : frame := {| alts := []; cur := [] |}.

Definition push (r : regex) (f : frame) : frame :=
  {| alts := alts f; cur := r :: cur f |}.

Definition seqOf (terms : list regex) : regex := fold_right Seq Empty terms.

Fixpoint altOf (rs : list regex) : regex :=
  match rs with
  | [] => Empty
  | [r] => r
  | r :: rs' => Alt r (altOf rs')
  end.

Definition nextAlternative (f : frame) : frame :=
  {| alts := seqOf (rev (cur f)) :: alts f; cur := [] |}.

Definition close (f : frame) : regex := altOf (rev (alts (nextAlternative f))).

(** Only an atom takes a quantifier. *)
Definition quantifiable (r : regex) : bool :=
  match r with
  | Chr _ | AnyChar | WordChar | Group _ => true
  | _ => false
  end.

Definition quantify (q : regex -> regex) (f : frame) : option frame :=
  match cur f with
  | r :: terms =>
      if quantifiable r then Some {| alts := alts f; cur := q r :: terms |}
      else None
  | [] => None
  end.

Fixpoint parseFrom (src : string) (top : frame) (stack : list frame) : option regex :=
  match src with
  | EmptyString =>
      match stack with
      | [] => Some (close top)
      | _ :: _ => None
      end
  | String c rest =>
      match classify c with
      | TChar c => parseFrom rest (push (Chr c) top) stack
      | TDot => parseFrom rest (push AnyChar top) stack
      | TDollar => parseFrom rest (push EndAnchor top) stack
      | TOpen => parseFrom rest emptyFrame (top :: stack)
      | TClose =>
          match stack with
          | outer :: stack' => parseFrom rest (push (Group (close top)) outer) stack'
          | [] => None
          end
      | TBar => parseFrom rest (nextAlternative top) stack
      | TStar =>
          match quantify Star top with
          | Some top' => parseFrom rest top' stack
          | None => None
          end
      | TPlus =>
          match quantify Plus top with
          | Some top' => parseFrom rest top' stack
          | None => None
          end
      | TBackslash =>
          match rest with
          | String e rest' =>
              match escape e with
              | Some r => parseFrom rest' (push r top) stack
              | None => None
              end
          | EmptyString => None
          end
      | TOther => None
      end
  end.

(** [new RegExp(source)] *)
Definition parse (source : string) : option regex :=
  parseFrom source emptyFrame [].

End RegExp.

(** ** Statements that mutate and may throw

    A computation runs on a state [St] and either returns a value or
    throws; in both cases the state reached so far stays, as the mutations
    of a JavaScript object stay when a later statement throws. *)

Module Exec.

Inductive exn : Type :=
| ConfigurationError (message : string)   (* an unusable platform *)
| SyntaxError (pattern : string)          (* [new RegExp] on a bad pattern *)
| ModuleNotFound (request : string).      (* [require.resolve] *)

Inductive outcome (A : Type) : Type :=
| Returned (a : A)
| Thrown (e : exn).

Arguments Returned {A} a.
Arguments Thrown {A} e.

Definition M (St A : Type) : Type := St -> outcome A * St.

Definition ret {St A} (a : A) : M St A := fun st => (Returned a, st).

Definition bind {St A B} (m : M St A) (f : A -> M St B) : M St B :=
  fun st =>
    match m st with
    | (Returned a, st') => f a st'
    | (Thrown e, st') => (Thrown e, st')
    end.

Definition throw {St A} (e : exn) : M St A := fun st => (Thrown e, st).

(** [try { body } catch { handler }] *)
Definition tryCatch {St A} (body : M St A) (handler : exn -> M St A) : M St A :=
  fun st =>
    match body st with
    | (Returned a, st') => (Returned a, st')
    | (Thrown e, st') => handler e st'
    end.

Definition modify {St} (f : St -> St) : M St unit :=
  fun st => (Returned tt, f st).

Definition when {St} (b : bool) (m : M St unit) : M St unit :=
  if b then m else ret tt.

End Exec.

Notation "x <- m ;; k" := (Exec.bind m (fun x => k))
  (at level 61, m at next level, right associativity).
Notation "m ;;; k" := (Exec.bind m (fun _ => k))
  (at level 61, right associativity).

(** ** The postcss-import resolver (base.ts, lines 343-369) *)

Module Stylesheet.

Import Exec.

(** What the resolver asks of Node: [path.extname], [path.resolve],
    [require.resolve] ([None] when it throws) and [fs.existsSync]. *)
Record Host : Type := {
  extname : string -> string;
  pathResolve : string -> string -> string;
  requireResolve : string -> string -> option string;
  existsSync : string -> bool
}.

(** The calls that leave the resolver, in the order they are made. *)
Inductive event : Type :=
| RequireResolve (request baseDir : string)
| ExistsSync (path : string)
| ConsoleLog (message : string).

Definition IO (A : Type) : Type := M (list event) A.

Definition emit (e : event) : IO unit := modify (fun log => log ++ [e]).

(** [require.resolve(request, { paths: [baseDir] })] *)
Definition callRequireResolve (h : Host) (request baseDir : string) : IO string :=
  emit (RequireResolve request baseDir) ;;;
  match requireResolve h request baseDir with
  | Some path => ret path
  | None => throw (ModuleNotFound request)
  end.

Definition callExistsSync (h : Host) (path : string) : IO bool :=
  emit (ExistsSync path) ;;;
  ret (existsSync h path).

(** A string between double quotes, for the message of line 361. *)
Definition quoted (s : string) : string :=
  String (ascii_of_nat 34) (s ++ String (ascii_of_nat 34) EmptyString).

(** Line 345: [platform === 'visionos' ? [platform, 'ios'] : [platform]] *)
Definition platformTargets (platform : string) : list string :=
  if String.eqb platform "visionos" then [platform; "ios"] else [platform].

(** Line 348: [ext ? `.${platformTarget}${ext}` : ''] *)
Definition platformExtOf (platformTarget ext : string) : string :=
  if String.eqb ext EmptyString then EmptyString
  else "." ++ platformTarget ++ ext.

(** Line 351 *)
Definition platformRequestOf (id platformTarget ext : string) : string :=
  JS.replace id ext (platformExtOf platformTarget ext).

(** The [for ... of] loop of lines 346-365 over the targets still to
    visit; a [return] inside the body ends it, line 368 follows it. *)
Fixpoint tryTargets (h : Host) (id baseDir : string) (targets : list string)
    : IO string :=
  match targets with
  | [] => ret id
  | platformTarget :: later =>
      let ext := extname h id in
      let platformExt := platformExtOf platformTarget ext in
      if negb (JS.includes id platformExt) then
        let platformRequest := JS.replace id ext platformExt in
        let extPath := pathResolve h baseDir platformRequest in
        found <- tryCatch
                   (path <- callRequireResolve h platformRequest baseDir ;;
                    ret (Some path))
                   (fun _ => ret None) ;;
        match found with
        | Some path => ret path
        | None =>
            present <- callExistsSync h extPath ;;
            if present then
              emit (ConsoleLog ("resolving " ++ quoted id ++ " to "
                                  ++ quoted platformRequest)) ;;;
              ret extPath
            else tryTargets h id baseDir later
        end
      else tryTargets h id baseDir later
  end.

(** [resolve(id, baseDir, importOptions)] for a build of [platform]. *)
Definition resolve (platform : string) (h : Host) (id baseDir : string) : IO string :=
  tryTargets h id baseDir (platformTargets platform).

(** The candidates of one target: the request handed to
    [require.resolve] and the path handed to [existsSync]. *)
Definition candidate (h : Host) (id baseDir platformTarget : string) : string * string :=
  let request := platformRequestOf id platformTarget (extname h id) in
  (request, pathResolve h baseDir request).

End Stylesheet.

(** ** The configuration object and its surroundings *)

Module Config.

(** The arguments a plugin is registered with. *)
Inductive pluginArgs : Type :=
| ContextExclusion (re : RegExp.regex)
| PlatformSuffix (extensions : list string)
| Define (flags : list (string * bool))
| NoArgs.

(** The webpack-chain [Config], projected on what the platform decides:
    externals, output, optimisation, loader rules and aliases are set by
    base.ts from values that are not modelled and are left out. *)
Record t : Type := {
  mode : string;
  bundle : ChainedSet.t;                     (* [entry('bundle')] *)
  inspectorModules : ChainedSet.t;           (* [entry('tns_modules/inspector_modules')] *)
  extensions : ChainedSet.t;                 (* [resolve.extensions] *)
  importPlatform : option string;            (* platform of the postcss-import resolver *)
  plugins : list (string * pluginArgs)       (* [plugin(name).use(_, args)] *)
}.

Definition fresh : t :=
  {| mode := EmptyString; bundle := []; inspectorModules := [];
     extensions := []; importPlatform := None; plugins := [] |}.

Definition setMode (m : string) (c : t) : t :=
  {| mode := m; bundle := bundle c; inspectorModules := inspectorModules c;
     extensions := extensions c; importPlatform := importPlatform c;
     plugins := plugins c |}.

Definition onBundle (f : ChainedSet.t -> ChainedSet.t) (c : t) : t :=
  {| mode := mode c; bundle := f (bundle c);
     inspectorModules := inspectorModules c;
     extensions := extensions c; importPlatform := importPlatform c;
     plugins := plugins c |}.

Definition onInspectorModules (f : ChainedSet.t -> ChainedSet.t) (c : t) : t :=
  {| mode := mode c; bundle := bundle c;
     inspectorModules := f (inspectorModules c);
     extensions := extensions c; importPlatform := importPlatform c;
     plugins := plugins c |}.

Definition onExtensions (f : ChainedSet.t -> ChainedSet.t) (c : t) : t :=
  {| mode := mode c; bundle := bundle c;
     inspectorModules := inspectorModules c;
     extensions := f (extensions c); importPlatform := importPlatform c;
     plugins := plugins c |}.

Definition setImportPlatform (p : string) (c : t) : t :=
  {| mode := mode c; bundle := bundle c;
     inspectorModules := inspectorModules c;
     extensions := extensions c; importPlatform := Some p;
     plugins := plugins c |}.

(** A ChainedMap entry: set in place when the name exists, appended
    otherwise. *)
Fixpoint setEntry (name : string) (args : pluginArgs)
    (entries : list (string * pluginArgs)) : list (string * pluginArgs) :=
  match entries with
  | [] => [(name, args)]
  | (n, a) :: rest =>
      if String.eqb n name then (n, args) :: rest
      else (n, a) :: setEntry name args rest
  end.

(** [config.plugin(name).use(Plugin, [args])] *)
Definition usePlugin (name : string) (args : pluginArgs) (c : t) : t :=
  {| mode := mode c; bundle := bundle c;
     inspectorModules := inspectorModules c;
     extensions := extensions c; importPlatform := importPlatform c;
     plugins := setEntry name args (plugins c) |}.

(** [config.plugins.get(name)], as the arguments it was registered
    with. *)
Fixpoint plugin (name : string) (entries : list (string * pluginArgs))
    : option pluginArgs :=
  match entries with
  | [] => None
  | (n, a) :: rest => if String.eqb n name then Some a else plugin name rest
  end.

End Config.

(** [env.appComponents]: absent, one module, or an array of modules. *)
Inductive appComponentsValue : Type :=
| NoComponents
| OneComponent (component : string)
| ComponentArray (arr : list string).

(** The [env] object, as far as base.ts branches on it. *)
Record IWebpackEnv : Type := {
  production : bool;
  hmr : bool;
  report : bool;
  verbose : bool;
  appComponents : appComponentsValue
}.

Definition setAppComponents (v : appComponentsValue) (e : IWebpackEnv) : IWebpackEnv :=
  {| production := production e; hmr := hmr e; report := report e;
     verbose := verbose e; appComponents := v |}.

(** What helpers/platform works from: the platform identifier handed in by
    the environment loader, the table of registered platforms and the
    entry path of the project. *)
Record Ambient : Type := {
  requested : string;
  known : list string;
  entryPath : string
}.

(** The helper modules that are not part of the sources and act on the
    configuration or on their own module state: helpers/copyRules
    ([addCopyRule] fills a module-level collection, [applyCopyRules]
    registers it), helpers/dotEnv, helpers/fileReplacements and
    helpers/dependencies. *)
Record Helpers (CopyRules : Type) : Type := {
  addCopyRule : string -> CopyRules -> CopyRules;
  applyCopyRules : CopyRules -> Config.t -> Config.t;
  applyDotEnvPlugin : Config.t -> Config.t;
  applyFileReplacements : Config.t -> Config.t;
  hasDependency : string -> bool
}.

Arguments addCopyRule {CopyRules} _ _ _.
Arguments applyCopyRules {CopyRules} _ _ _.
Arguments applyDotEnvPlugin {CopyRules} _ _.
Arguments applyFileReplacements {CopyRules} _ _.
Arguments hasDependency {CopyRules} _ _.

(** ** helpers/platform *)

Module Platform.

Import Exec.

(** Modelled from the spec: [getAvailablePlatforms] of helpers/platform,
    which is not among the sources.  The spec calls its result
    allKnownPlatforms, the closed but extensible set of platform
    identifiers (ios, android, visionos and what a project registers). *)
Definition getAvailablePlatforms (amb : Ambient) : list string := known amb.

Definition isKnown (amb : Ambient) (id : string) : bool :=
  existsb (String.eqb id) (getAvailablePlatforms amb).

(** Modelled from the spec: [getPlatformName] of helpers/platform, which
    is not among the sources.  The spec has the platform identifier come
    from the environment loader and says of an unknown one that it
    "fails fast with a configuration error before any resolution logic
    runs; this component never silently defaults to a guessed
    platform". *)
Definition getPlatformName {St} (amb : Ambient) : M St string :=
  if isKnown amb (requested amb) then ret (requested amb)
  else throw (ConfigurationError (requested amb)).

End Platform.

(** ** The ContextExclusionPlugin patterns (base.ts, lines 423-439) *)

Module Exclusion.

(** Line 427 *)
Definition appResourcesSource : string := "(.*)App_Resources(.*)".

(** Lines 431-433, with the platform list and the active platform that
    the two helper calls deliver. *)
Definition otherPlatforms (available : list string) (active : string) : list string :=
  filter (fun platform => JS.strictNe platform active) available.

Definition otherPlatformsRE (available : list string) (active : string) : string :=
  JS.join "|" (otherPlatforms available active).

(** Line 438: [`\\.(${otherPlatformsRE})\\.(\\w+)$`] *)
Definition otherPlatformsSource (available : list string) (active : string) : string :=
  "\.(" ++ otherPlatformsRE available active ++ ")\.(\w+)$".

(** The two patterns, in the order they are registered. *)
Definition buildExclusionPatterns (active : string) (available : list string)
    : option (list RegExp.regex) :=
  match RegExp.parse appResourcesSource,
        RegExp.parse (otherPlatformsSource available active) with
  | Some appResources, Some others => Some [appResources; others]
  | _, _ => None
  end.

(** A [require.context] drops a path as soon as one exclusion pattern
    tests true on it. *)
Definition excluded (patterns : list RegExp.regex) (path : string) : bool :=
  existsb (fun re => RegExp.test re path) patterns.

End Exclusion.

(** ** base.ts *)

Module Base.

Import Exec ChainedSet Config Platform Extensions.

(** What a call works on: the two objects it is handed, [config] and
    [env], both of which it mutates in place, and the module state of
    helpers/copyRules, which outlives the call. *)
Record Build (CopyRules : Type) : Type := {
  config : Config.t;
  env : IWebpackEnv;
  copyRules : CopyRules
}.

Arguments config {CopyRules} _.
Arguments env {CopyRules} _.
Arguments copyRules {CopyRules} _.

Section WithHelpers.

Context {CopyRules : Type} (helpers : Helpers CopyRules).

Definition onConfig (f : Config.t -> Config.t) : M (Build CopyRules) unit :=
  modify (fun b => {| config := f (config b); env := env b; copyRules := copyRules b |}).

Definition onCopyRules (f : CopyRules -> CopyRules) : M (Build CopyRules) unit :=
  modify (fun b => {| config := config b; env := env b; copyRules := f (copyRules b) |}).

(** [env.production], [env.hmr], [env.report] *)
Definition envFlag (flag : IWebpackEnv -> bool) : M (Build CopyRules) bool :=
  fun b => (Returned (flag (env b)), b).

(** Lines 109-111: the array of [env.appComponents] itself, or a new
    array around a single truthy value, or a new empty array. *)
Definition componentsOf (v : appComponentsValue) : list string :=
  match v with
  | ComponentArray arr => arr
  | OneComponent component =>
      if String.eqb component EmptyString then [] else [component]
  | NoComponents => []
  end.

(** Lines 112-113: the two [push] calls. *)
Definition pushed (e : IWebpackEnv) : list string :=
  componentsOf (appComponents e)
  ++ ["@nativescript/core/ui/frame"; "@nativescript/core/ui/frame/activity"].

(** They land in [env.appComponents] when that is the array pushed to. *)
Definition afterPush (e : IWebpackEnv) : IWebpackEnv :=
  match appComponents e with
  | ComponentArray _ => setAppComponents (ComponentArray (pushed e)) e
  | _ => e
  end.

(** Lines 109-116 *)
Definition addAppComponents : M (Build CopyRules) unit :=
  modify (fun b =>
    {| config := onBundle (fun entry =>
                   fold_left (fun entry component => add component entry)
                     (pushed (env b)) entry) (config b);
       env := afterPush (env b);
       copyRules := copyRules b |}).

(** [new RegExp(source)] *)
Definition newRegExp (source : string) : M (Build CopyRules) RegExp.regex :=
  match RegExp.parse source with
  | Some re => ret re
  | None => throw (SyntaxError source)
  end.

(** [arr.filter(callback)] with a callback that may throw. *)
Fixpoint filterM (keep : string -> M (Build CopyRules) bool) (arr : list string)
    : M (Build CopyRules) (list string) :=
  match arr with
  | [] => ret []
  | x :: rest =>
      kept <- keep x ;;
      tail <- filterM keep rest ;;
      ret (if kept then x :: tail else tail)
  end.

(** Lines 517-522 *)
Definition shouldIncludeInspectorModules (amb : Ambient) : M (Build CopyRules) bool :=
  platform <- getPlatformName amb ;;
  ret (String.eqb platform "ios" || String.eqb platform "android").

(** Lines 458-481, the entries that depend on the platform. *)
Definition platformFlags (platform : string) : list (string * bool) :=
  [ ("__ANDROID__", String.eqb platform "android");
    ("__IOS__", String.eqb platform "ios");
    ("__VISIONOS__", String.eqb platform "visionos");
    ("__APPLE__", String.eqb platform "ios" || String.eqb platform "visionos");
    ("global.isAndroid", String.eqb platform "android");
    ("global.isIOS", String.eqb platform "ios" || String.eqb platform "visionos");
    ("global.isVisionOS", String.eqb platform "visionos") ].

(** Lines 32-515. *)
Definition base (amb : Ambient) : M (Build CopyRules) unit :=
  let entryPath := entryPath amb in
  platform <- getPlatformName amb ;;
  production <- envFlag production ;;
  let mode := if production then "production" else "development" in
  onConfig (setMode mode) ;;;
  onConfig (onBundle (fun entry =>
    entry
    |> add "@nativescript/core/globals/index"
    |> add "@nativescript/core/bundle-entry-points"
    |> add entryPath)) ;;;
  when (String.eqb platform "android") addAppComponents ;;;
  inspector <- shouldIncludeInspectorModules amb ;;
  when inspector
    (onConfig (onInspectorModules (add "@nativescript/core/inspector_modules"))) ;;;
  onConfig (onExtensions (resolveExtensions platform)) ;;;
  when (hasDependency helpers "typescript")
    (onConfig (usePlugin "ForkTsCheckerWebpackPlugin" NoArgs)) ;;;
  onConfig (setImportPlatform platform) ;;;
  onConfig (usePlugin "PlatformSuffixPlugin"
    (PlatformSuffix
       (if String.eqb platform "visionos" then [platform; "ios"] else [platform]))) ;;;
  appResources <- newRegExp Exclusion.appResourcesSource ;;
  onConfig (usePlugin "ContextExclusionPlugin|App_Resources"
    (ContextExclusion appResources)) ;;;
  others <- filterM (fun platform =>
                       active <- getPlatformName amb ;;
                       ret (JS.strictNe platform active))
                    (getAvailablePlatforms amb) ;;
  let otherPlatformsRE := JS.join "|" others in
  otherPlatforms <- newRegExp ("\.(" ++ otherPlatformsRE ++ ")\.(\w+)$") ;;
  onConfig (usePlugin "ContextExclusionPlugin|Other_Platforms"
    (ContextExclusion otherPlatforms)) ;;;
  onConfig (usePlugin "DefinePlugin" (Define (platformFlags platform))) ;;;
  onConfig (applyDotEnvPlugin helpers) ;;;
  onConfig (applyFileReplacements helpers) ;;;
  onCopyRules (addCopyRule helpers "assets/**") ;;;
  onCopyRules (addCopyRule helpers "fonts/**") ;;;
  onCopyRules (addCopyRule helpers "**/*.+(jpg|png)") ;;;
  modify (fun b => {| config := applyCopyRules helpers (copyRules b) (config b);
                      env := env b;
                      copyRules := copyRules b |}) ;;;
  onConfig (usePlugin "WatchStatePlugin" NoArgs) ;;;
  hot <- envFlag hmr ;;
  when hot (onConfig (usePlugin "HotModuleReplacementPlugin" NoArgs)) ;;;
  reporting <- envFlag report ;;
  when reporting (onConfig (usePlugin "BundleAnalyzerPlugin" NoArgs)).

(** The React configuration: base, then its own additions.  Its
    [getPlatform] of helpers/project is not among the sources; it is
    taken to name the platform of the build, as [getPlatformName]
    does.  [production] is the local constant [false]. *)
Definition react (amb : Ambient) : M (Build CopyRules) unit :=
  base amb ;;;
  platform <- getPlatformName amb ;;
  let production := false in
  onConfig (onExtensions (reactExtensions platform)) ;;;
  hot <- envFlag hmr ;;
  when (hot && negb production)
    (onConfig (usePlugin "ReactRefreshWebpackPlugin" NoArgs)).

End WithHelpers.

(** What one call hands to the bundler for resolution and for
    [require.context]. *)
Definition extensionList {CopyRules} (b : Build CopyRules) : list string :=
  ChainedSet.values (Config.extensions (config b)).

(** The names under which lines 426 and 436 register the exclusions. *)
Definition exclusionNames : list string :=
  ["ContextExclusionPlugin|App_Resources"; "ContextExclusionPlugin|Other_Platforms"].

Definition exclusionSet {CopyRules} (b : Build CopyRules) : list (option Config.pluginArgs) :=
  map (fun name => Config.plugin name (Config.plugins (config b))) exclusionNames.

End Base.

(** A toy instance of the helper modules, for concrete runs: copy rules
    are kept as a set of globs and registered as one plugin. *)
Module Sample.

Definition helpers : Helpers ChainedSet.t :=
  {| addCopyRule := ChainedSet.add;
     applyCopyRules := fun rules c => Config.usePlugin "CopyWebpackPlugin" Config.NoArgs c;
     applyDotEnvPlugin := Config.usePlugin "DotEnvPlugin" Config.NoArgs;
     applyFileReplacements := fun c => c;
     hasDependency := fun name => String.eqb name "typescript" |}.

Definition env : IWebpackEnv :=
  {| production := false; hmr := true; report := false; verbose := false;
     appComponents := ComponentArray ["app/services/widget"] |}.

Definition ambient (platform : string) : Ambient :=
  {| requested := platform;
     known := ["android"; "ios"; "visionos"];
     entryPath := "/app/src/app.ts" |}.

Definition start : Base.Build ChainedSet.t :=
  {| Base.config := Config.fresh; Base.env := env;
     Base.copyRules := ChainedSet.empty |}.

(** [path.extname] on a plain file name: from the last dot of the last
    segment, nothing when the segment has no dot or only a leading one. *)
Fixpoint extnameFrom (seenChar : bool) (s : string) : string :=
  match s with
  | EmptyString => EmptyString
  | String c rest =>
      if Ascii.eqb c "/" then extnameFrom false rest
      else
        let later := extnameFrom true rest in
        if negb (String.eqb later EmptyString) then later
        else if Ascii.eqb c "." && seenChar
                && negb (JS.includes rest "/") then s
        else EmptyString
  end.

(** A project directory holding [theme.ios.css] next to [theme.css],
    and no module that [require.resolve] would find. *)
Definition host : Stylesheet.Host :=
  {| Stylesheet.extname := extnameFrom false;
     Stylesheet.pathResolve := fun baseDir request => (baseDir ++ "/" ++ request)%string;
     Stylesheet.requireResolve := fun _ _ => None;
     Stylesheet.existsSync := fun path => String.eqb path "/app/src/theme.ios.css" |}.

(** The same directory without the ios stylesheet. *)
Definition bareHost : Stylesheet.Host :=
  {| Stylesheet.extname := extnameFrom false;
     Stylesheet.pathResolve := fun baseDir request => (baseDir ++ "/" ++ request)%string;
     Stylesheet.requireResolve := fun _ _ => None;
     Stylesheet.existsSync := fun _ => false |}.

End Sample.

(** ** Vocabulary of the statements *)

Module Spec.

(** [a] sits at some index of [l] and [b] at the next one. *)
Definition adjacent (a b : string) (l : list string) : Prop :=
  exists i, nth_error l i = Some a /\ nth_error l (S i) = Some b.

Fixpoint adjacentb (a b : string) (l : list string) : bool :=
  match l with
  | x :: (y :: _) as rest =>
      (String.eqb x a && String.eqb y b) || adjacentb a b rest
  | _ => false
  end.

(** A string of word characters, what [\w+] runs over. *)
Fixpoint isWord (s : string) : bool :=
  match s with
  | EmptyString => true
  | String c rest => RegExp.isWordChar c && isWord rest
  end.

(** A platform identifier: a non-empty word, as [ios], [android] and
    [visionos] are. *)
Definition isPlatformName (s : string) : bool :=
  negb (String.eqb s EmptyString) && isWord s.

Fixpoint hasDot (s : string) : bool :=
  match s with
  | EmptyString => false
  | String c rest => Ascii.eqb c "." || hasDot rest
  end.

(** The three platforms base.ts names. *)
Definition supportedPlatforms : list string := ["ios"; "android"; "visionos"].

(** The pairs of lines 195-207 written out. *)
Definition pairs (platform : string) (exts : list string) : list string :=
  flat_map (fun e => [Extensions.qualified platform e; Extensions.generic e]) exts.

(** The pattern text of a literal word as a sequence of characters. *)
Fixpoint lit (w : string) : list RegExp.regex :=
  match w with
  | EmptyString => []
  | String c rest => RegExp.Chr c :: lit rest
  end.

Definition litSeq (w : string) : RegExp.regex := RegExp.seqOf (lit w).

(** The syntax tree of [\.(n1|...|nk)\.(\w+)$]. *)
Definition otherPlatformsTree (names : list string) : RegExp.regex :=
  RegExp.Seq (RegExp.Chr ".")
    (RegExp.Seq
       (RegExp.Group
          (RegExp.altOf (map litSeq match names with
                                    | [] => [EmptyString]
                                    | _ :: _ => names
                                    end)))
       (RegExp.Seq (RegExp.Chr ".")
          (RegExp.Seq
             (RegExp.Group (RegExp.Seq (RegExp.Plus RegExp.WordChar) RegExp.Empty))
             (RegExp.Seq RegExp.EndAnchor RegExp.Empty)))).

(** The continuation that ends a match. *)
Definition accept : string -> bool := fun _ => true.

Definition atEnd (s : string) : bool :=
  match s with
  | EmptyString => true
  | String _ _ => false
  end.

(** The names that the group of [otherPlatformsTree] ranges over. *)
Definition alternatives (names : list string) : list string :=
  match names with
  | [] => [EmptyString]
  | _ :: _ => names
  end.

(** The tail [\.(\w+)$] of the pattern, as a tree and as what it
    accepts. *)
Definition wordTail : RegExp.regex :=
  RegExp.Seq (RegExp.Chr ".")
    (RegExp.Seq
       (RegExp.Group (RegExp.Seq (RegExp.Plus RegExp.WordChar) RegExp.Empty))
       (RegExp.Seq RegExp.EndAnchor RegExp.Empty)).

Definition dotWordEnd (s : string) : bool :=
  match s with
  | String d w => Ascii.eqb "." d && (negb (String.eqb w EmptyString) && isWord w)
  | EmptyString => false
  end.

(** A group that matches any run of characters, and the syntax tree
    of the App_Resources pattern of line 427. *)
Definition anything : RegExp.regex :=
  RegExp.Group (RegExp.Seq (RegExp.Star RegExp.AnyChar) RegExp.Empty).

Definition appResourcesTree : RegExp.regex :=
  RegExp.Seq anything (RegExp.seqOf (lit "App_Resources" ++ [anything])).

(** A step that leaves alone the extension set and the two exclusion
    plugins. *)
Definition keepsResolution (f : Config.t -> Config.t) : Prop :=
  forall c,
    Config.extensions (f c) = Config.extensions c
    /\ forall name, In name Base.exclusionNames ->
         Config.plugin name (Config.plugins (f c))
         = Config.plugin name (Config.plugins c).

Definition helpersKeepResolution {CopyRules} (helpers : Helpers CopyRules) : Prop :=
  keepsResolution (applyDotEnvPlugin helpers)
  /\ keepsResolution (applyFileReplacements helpers)
  /\ forall rules, keepsResolution (applyCopyRules helpers rules).

(** A configuration step taken under a condition, as [config.when]
    and [if] do. *)
Definition applyIf (c : bool) (f : Config.t -> Config.t) (x : Config.t) : Config.t :=
  if c then f x else x.

(** A target is tried when the specifier does not already carry its
    extension (line 350). *)
Definition eligible (h : Stylesheet.Host) (id platformTarget : string) : bool :=
  negb (JS.includes id
          (Stylesheet.platformExtOf platformTarget (Stylesheet.extname h id))).

(** The two lookups made for a target that is tried. *)
Definition probesOf (h : Stylesheet.Host) (id baseDir platformTarget : string)
    : list Stylesheet.event :=
  let c := Stylesheet.candidate h id baseDir platformTarget in
  [Stylesheet.RequireResolve (fst c) baseDir; Stylesheet.ExistsSync (snd c)].

Definition probes (h : Stylesheet.Host) (id baseDir : string)
    (targets : list string) : list Stylesheet.event :=
  flat_map (probesOf h id baseDir) (filter (eligible h id) targets).

(** Both lookups of a target fail. *)
Definition misses (h : Stylesheet.Host) (id baseDir platformTarget : string) : Prop :=
  let c := Stylesheet.candidate h id baseDir platformTarget in
  Stylesheet.requireResolve h (fst c) baseDir = None
  /\ Stylesheet.existsSync h (snd c) = false.

End Spec.

(** ** Source maps (base.ts, lines 59-82) *)

Module SourceMap.

(** [env.sourceMap]: absent, a boolean or the name of a devtool. *)
Inductive value : Type :=
| Undefined
| Boolean (b : bool)
| Text (s : string).

Definition defaultSourceMap : string := "inline-source-map".

(** Lines 59-80, with the [mode] of line 36 that the closure captures.
    The cast of line 79 passes the value through as it is. *)
Definition getSourceMapType (mode : string) (map : value) : value :=
  match map with
  | Undefined =>
      if String.eqb mode "production" then Boolean false
      else Text defaultSourceMap
  | Boolean true => Text defaultSourceMap
  | _ => map
  end.

(** Lines 36 and 82: [config.devtool(getSourceMapType(env.sourceMap))]. *)
Definition devtool (production : bool) (sourceMap : value) : value :=
  getSourceMapType (if production then "production" else "development") sourceMap.

End SourceMap.

(** ** The DefinePlugin object (base.ts, lines 458-481, and lines 30-45 of
    the React configuration) *)

Module Define.

(** A definition is a boolean or a fragment of code. *)
Inductive value : Type :=
| Flag (b : bool)
| Code (text : string).

Definition t := list (string * value).

Fixpoint get (key : string) (defs : t) : option value :=
  match defs with
  | [] => None
  | (k, v) :: rest => if String.eqb k key then Some v else get key rest
  end.

(** An own property: assigned in place when the key exists, added after
    the others when it does not. *)
Fixpoint set (key : string) (v : value) (defs : t) : t :=
  match defs with
  | [] => [(key, v)]
  | (k, old) :: rest =>
      if String.eqb k key then (k, v) :: rest else (k, old) :: set key v rest
  end.

(** webpack-merge's [merge(a, b)] on objects whose values are booleans
    and strings: the values of [b] replace those of [a]. *)
Definition merge (a b : t) : t :=
  fold_left (fun acc entry => set (fst entry) (snd entry) acc) b a.

(** [JSON.stringify] of a string without characters to escape. *)
Definition stringify (s : string) : string := Stylesheet.quoted s.

(** Lines 458-481.  [hostIPs] stands for [JSON.stringify(getIPS())] and
    [cssParser] for [getValue('cssParser', 'css-tree')], both from helper
    modules that are not among the sources. *)
Definition baseDefinitions (mode platform : string) (verbose : bool)
    (hostIPs cssParser : string) : t :=
  [ ("__DEV__", Flag (String.eqb mode "development"));
    ("__NS_WEBPACK__", Flag true);
    ("__NS_ENV_VERBOSE__", Flag verbose);
    ("__NS_DEV_HOST_IPS__",
     Code (if String.eqb mode "development" then hostIPs else "[]"));
    ("__CSS_PARSER__", Code (stringify cssParser));
    ("__UI_USE_XML_PARSER__", Flag true);
    ("__UI_USE_EXTERNAL_RENDERER__", Flag false) ]
  ++ map (fun entry => (fst entry, Flag (snd entry))) (Base.platformFlags platform)
  ++ [ ("process", Code "global.process") ].

(** Lines 30-45 of the React configuration, with its local
    [production = false] of line 13. *)
Definition reactDefinitions (args : t) : t :=
  let production := false in
  merge args
    [ ("__DEV__", Code (if production then "false" else "true"));
      ("__TEST__", Code "false");
      ("process.env.NODE_ENV",
       Code (stringify (if production then "production" else "development"))) ].

End Define.

(** ** Vocabulary of the further statements *)

Module Settled.

(** The plugins that base registers before it calls the helper modules. *)
Definition basePlugins : list string :=
  [ "ForkTsCheckerWebpackPlugin"; "PlatformSuffixPlugin";
    "ContextExclusionPlugin|App_Resources";
    "ContextExclusionPlugin|Other_Platforms"; "DefinePlugin" ].

(** A step that leaves alone what base has set before the helper
    modules run: mode, entries, extensions, the platform of the import
    resolver and the plugins of [basePlugins]. *)
Definition keepsSettings (f : Config.t -> Config.t) : Prop :=
  forall c,
    Config.mode (f c) = Config.mode c
    /\ Config.bundle (f c) = Config.bundle c
    /\ Config.inspectorModules (f c) = Config.inspectorModules c
    /\ Config.extensions (f c) = Config.extensions c
    /\ Config.importPlatform (f c) = Config.importPlatform c
    /\ forall name, In name basePlugins ->
         Config.plugin name (Config.plugins (f c))
         = Config.plugin name (Config.plugins c).

Definition helpersKeepSettings {CopyRules} (helpers : Helpers CopyRules) : Prop :=
  keepsSettings (applyDotEnvPlugin helpers)
  /\ keepsSettings (applyFileReplacements helpers)
  /\ forall rules, keepsSettings (applyCopyRules helpers rules).

(** What lines 213-218 push for one extension. *)
Definition fallbackOf (ext : string) : list string :=
  if JS.includes ext "visionos" then [ext; JS.replace ext "visionos" "ios"]
  else [ext].

(** A string with a dollar sign, which [replace] reads as a pattern in
    its replacement text. *)
Fixpoint hasDollar (s : string) : bool :=
  match s with
  | EmptyString => false
  | String c rest => Ascii.eqb c "$" || hasDollar rest
  end.

(** The events of a log that are lookups by [require.resolve]. *)
Definition isRequireResolve (e : Stylesheet.event) : bool :=
  match e with
  | Stylesheet.RequireResolve _ _ => true
  | _ => false
  end.


(** The value of one flag. *)
Fixpoint flag (name : string) (flags : list (string * bool)) : option bool :=
  match flags with
  | [] => None
  | (n, v) :: rest => if String.eqb n name then Some v else flag name rest
  end.

End Settled.

(** ** Loader rules (base.ts, lines 264-405, and line 20 of the React
    configuration) *)

Module Rules.

(** A rule, as far as it selects files: the pattern texts of its [test]
    and of its [exclude] conditions. *)
Record rule : Type := {
  test : list string;
  exclude : list string
}.

(** A list of conditions holds when one of them does. *)
Definition anyMatch (sources : list string) (path : string) : bool :=
  existsb (fun source =>
             match RegExp.parse source with
             | Some re => RegExp.test re path
             | None => false
             end) sources.

(** A rule applies to the paths that its [test] matches and its
    [exclude] does not. *)
Definition applies (r : rule) (path : string) : bool :=
  anyMatch (test r) path && negb (anyMatch (exclude r) path).

(** Lines 265-269 *)
Definition workers : rule := {| test := ["\.(mjs|js|ts)$"]; exclude := [] |}.

(** Lines 279-283 *)
Definition ts : rule := {| test := ["\.ts$"]; exclude := [] |}.

(** Lines 317-321 *)
Definition js : rule := {| test := ["\.js$"]; exclude := ["node_modules"] |}.

(** Lines 325-329 *)
Definition xml : rule := {| test := ["\.xml$"]; exclude := [] |}.

(** Lines 377-379 *)
Definition css : rule := {| test := ["\.css$"]; exclude := [] |}.

(** Lines 391-393 *)
Definition scss : rule := {| test := ["\.scss$"]; exclude := [] |}.

(** Line 20 of the React configuration:
    [test([...config.module.rule('ts').get('test'), /\.tsx$/])]. *)
Definition withTsx (r : rule) : rule :=
  {| test := test r ++ ["\.tsx$"]; exclude := exclude r |}.

End Rules.

Import Extensions.

(** * Facts *)

(** ** Strings *)

Section StringFacts.

Lemma append_assoc (a b c : string) : ((a ++ b) ++ c = a ++ (b ++ c))%string.
Proof. induction a as [|x a IH]; simpl; [reflexivity | now rewrite IH]. Qed.

Lemma append_nil_r (a : string) : (a ++ EmptyString)%string = a.
Proof. induction a as [|x a IH]; simpl; [reflexivity | now rewrite IH]. Qed.

Lemma append_inv_head (a b c : string) : (a ++ b = a ++ c)%string -> b = c.
Proof.
  induction a as [|x a IH]; simpl; intros H; [assumption|].
  injection H as H. now apply IH.
Qed.

Lemma hasDot_append (a b : string) :
  Spec.hasDot (a ++ b) = Spec.hasDot a || Spec.hasDot b.
Proof.
  induction a as [|x a IH]; simpl; [reflexivity|].
  now rewrite IH, orb_assoc.
Qed.

Lemma startsWith_append (p s : string) : JS.startsWith p (p ++ s) = true.
Proof.
  induction p as [|x p IH]; simpl; [reflexivity|].
  now rewrite Ascii.eqb_refl, IH.
Qed.

Lemma startsWith_inv (p s : string) :
  JS.startsWith p s = true -> exists rest, s = (p ++ rest)%string.
Proof.
  revert s; induction p as [|x p IH]; intros s H.
  - now exists s.
  - destruct s as [|y s]; simpl in H; [discriminate|].
    apply andb_true_iff in H as [Hxy H].
    apply Ascii.eqb_eq in Hxy; subst y.
    destruct (IH _ H) as [rest ->]. now exists rest.
Qed.

Lemma startsWith_empty (s : string) : JS.startsWith EmptyString s = true.
Proof. now destruct s. Qed.

Lemma includes_empty (s : string) : JS.includes s EmptyString = true.
Proof. destruct s; reflexivity. Qed.

Lemma includes_here (s pat : string) :
  JS.startsWith pat s = true -> JS.includes s pat = true.
Proof. intros H. destruct s; simpl; now rewrite H. Qed.

Lemma includes_intro (pre pat post : string) :
  JS.includes (pre ++ pat ++ post) pat = true.
Proof.
  induction pre as [|x pre IH]; simpl.
  - apply includes_here, startsWith_append.
  - rewrite IH. apply orb_true_r.
Qed.

Lemma includes_inv (s pat : string) :
  JS.includes s pat = true -> exists pre post, s = (pre ++ pat ++ post)%string.
Proof.
  induction s as [|x s IH]; simpl; intros H.
  - rewrite orb_false_r in H. destruct (startsWith_inv _ _ H) as [post E].
    exists EmptyString, post. exact E.
  - apply orb_true_iff in H as [H|H].
    + destruct (startsWith_inv _ _ H) as [post E].
      exists EmptyString, post. exact E.
    + destruct (IH H) as (pre & post & ->).
      exists (String x pre), post. reflexivity.
Qed.

End StringFacts.

(** ** Insertion-ordered sets *)

Section ChainedSetFacts.

Import ChainedSet.

Lemma has_In (v : string) (store : t) : has v store = true <-> In v store.
Proof.
  unfold has. rewrite existsb_exists. split.
  - intros (x & Hx & E). apply String.eqb_eq in E. now subst.
  - intros H. exists v. split; [assumption | apply String.eqb_refl].
Qed.

Lemma add_fresh (v : string) (store : t) : ~ In v store -> add v store = store ++ [v].
Proof.
  intros H. unfold add. destruct (has v store) eqn:E; [|reflexivity].
  apply has_In in E. contradiction.
Qed.

Lemma add_present (v : string) (store : t) : In v store -> add v store = store.
Proof. intros H. unfold add. apply has_In in H. now rewrite H. Qed.

Lemma add_NoDup (v : string) (store : t) : NoDup store -> NoDup (add v store).
Proof.
  intros H. unfold add. destruct (has v store) eqn:E; [assumption|].
  apply NoDup_app; [assumption | repeat constructor; intros [] | ].
  intros x Hx [<-|[]]. apply has_In in Hx. congruence.
Qed.

Lemma addAll_NoDup (arr : list string) (store : t) :
  NoDup store -> NoDup (fold_left (fun store value => add value store) arr store).
Proof.
  revert store; induction arr as [|v arr IH]; simpl; intros store H; [assumption|].
  apply IH, add_NoDup, H.
Qed.

Lemma addAll_fresh (arr : list string) (store : t) :
  NoDup (store ++ arr) ->
  fold_left (fun store value => add value store) arr store = store ++ arr.
Proof.
  revert store; induction arr as [|v arr IH]; simpl; intros store H.
  - now rewrite app_nil_r.
  - rewrite add_fresh.
    + rewrite IH; rewrite <- app_assoc; [reflexivity | exact H].
    + apply NoDup_remove_2 in H. intros Hv. apply H, in_or_app. now left.
Qed.

Lemma ofArray_NoDup (arr : list string) : NoDup (ofArray arr).
Proof. apply addAll_NoDup. constructor. Qed.

Lemma ofArray_fresh (arr : list string) : NoDup arr -> ofArray arr = arr.
Proof. intros H. unfold ofArray. now rewrite addAll_fresh. Qed.

Lemma prepend_fresh (v : string) (store : t) :
  NoDup (v :: store) -> prepend v store = v :: store.
Proof. intros H. unfold prepend, values. now apply ofArray_fresh. Qed.

End ChainedSetFacts.

(** ** The extension list *)

Section ExtensionFacts.

Import ChainedSet Spec.

Lemma addExtensions_generic (platform : string) (store : t) :
  addExtensions platform store = addExtensionsOf platform genericExtensions store.
Proof. reflexivity. Qed.

Lemma pairs_app (platform : string) (a b : list string) :
  pairs platform (a ++ b) = pairs platform a ++ pairs platform b.
Proof. unfold pairs. apply flat_map_app. Qed.

Lemma In_pairs (platform v : string) (exts : list string) :
  In v (pairs platform exts) ->
  exists e, In e exts /\ (v = qualified platform e \/ v = generic e).
Proof.
  unfold pairs. rewrite in_flat_map. intros (e & He & [H|[H|[]]]).
  - exists e. auto.
  - exists e. auto.
Qed.

Lemma qualified_inj (platform e e' : string) :
  qualified platform e = qualified platform e' -> e = e'.
Proof.
  unfold qualified. intros H.
  apply append_inv_head, append_inv_head, append_inv_head in H. exact H.
Qed.

Lemma generic_inj (e e' : string) : generic e = generic e' -> e = e'.
Proof. unfold generic. apply append_inv_head. Qed.

Lemma qualified_not_generic (platform e e' : string) :
  hasDot e' = false -> qualified platform e <> generic e'.
Proof.
  unfold qualified, generic. intros Hdot H.
  apply append_inv_head in H. rewrite <- H in Hdot.
  rewrite hasDot_append in Hdot. simpl in Hdot.
  now rewrite orb_true_r in Hdot.
Qed.

(** On a store that holds the pairs of [done], the chain adds the
    pairs of [exts] one after the other. *)
Lemma addExtensionsOf_pairs (platform : string) (exts done : list string) :
  NoDup (done ++ exts) ->
  Forall (fun e => hasDot e = false) (done ++ exts) ->
  addExtensionsOf platform exts (pairs platform done) = pairs platform (done ++ exts).
Proof.
  revert done; induction exts as [|e exts IH]; intros done Hnd Hdot.
  - now rewrite app_nil_r.
  - assert (Hfresh : ~ In e done).
    { apply NoDup_remove_2 in Hnd. intros H. apply Hnd, in_or_app. now left. }
    assert (Hde : forall e', In e' done -> hasDot e' = false).
    { intros e' H. rewrite Forall_forall in Hdot. apply Hdot, in_or_app. now left. }
    assert (He : hasDot e = false).
    { rewrite Forall_forall in Hdot. apply Hdot, in_or_app. right. now left. }
    unfold addExtensionsOf. simpl.
    rewrite (add_fresh (qualified platform e)).
    2:{ intros H. apply In_pairs in H as (e' & He' & [H|H]).
        - apply qualified_inj in H. congruence.
        - now apply qualified_not_generic in H; [|apply Hde]. }
    rewrite (add_fresh (generic e)).
    2:{ intros H. apply in_app_or in H as [H|[H|[]]].
        - apply In_pairs in H as (e' & He' & [H|H]).
          + symmetry in H. now apply qualified_not_generic in H.
          + apply generic_inj in H. congruence.
        - now apply qualified_not_generic in H. }
    rewrite <- app_assoc. simpl.
    replace (pairs platform done ++ [qualified platform e; generic e])
      with (pairs platform (done ++ [e]))
      by (rewrite pairs_app; simpl; reflexivity).
    fold (addExtensionsOf platform exts (pairs platform (done ++ [e]))).
    rewrite IH; rewrite <- app_assoc; simpl; auto.
Qed.

Lemma genericExtensions_plain :
  NoDup ("tsx" :: genericExtensions)
  /\ Forall (fun e => hasDot e = false) ("tsx" :: genericExtensions).
Proof.
  split.
  - repeat constructor; simpl; intuition discriminate.
  - repeat constructor.
Qed.

Lemma pairs_NoDup (platform : string) (exts : list string) :
  NoDup exts -> Forall (fun e => hasDot e = false) exts ->
  NoDup (pairs platform exts).
Proof.
  intros Hnd Hdot.
  pose proof (addExtensionsOf_pairs platform exts [] Hnd Hdot) as E.
  simpl in E. rewrite <- E. clear E Hnd Hdot.
  assert (G : forall store, NoDup store -> NoDup (addExtensionsOf platform exts store)).
  { unfold addExtensionsOf.
    induction exts as [|e exts IH]; simpl; intros store Hs; [assumption|].
    now apply IH, add_NoDup, add_NoDup. }
  apply G. constructor.
Qed.

(** A fresh configuration of a platform other than visionos gets the
    twelve entries in the order of the calls. *)
Lemma resolveExtensions_plain (platform : string) :
  platform <> "visionos" ->
  resolveExtensions platform empty = pairs platform genericExtensions.
Proof.
  intros H. unfold resolveExtensions, aliasExtensions.
  apply String.eqb_neq in H. rewrite H.
  rewrite addExtensions_generic.
  apply (addExtensionsOf_pairs platform genericExtensions []).
  - destruct genericExtensions_plain as [Hnd _]. now inversion Hnd.
  - destruct genericExtensions_plain as [_ Hdot]. now inversion Hdot.
Qed.

Lemma resolveExtensions_visionos :
  resolveExtensions "visionos" empty =
  [ ".visionos.ts"; ".ios.ts"; ".ts";
    ".visionos.js"; ".ios.js"; ".js";
    ".visionos.mjs"; ".ios.mjs"; ".mjs";
    ".visionos.css"; ".ios.css"; ".css";
    ".visionos.scss"; ".ios.scss"; ".scss";
    ".visionos.json"; ".ios.json"; ".json" ].
Proof. vm_compute. reflexivity. Qed.

(** The two [prepend] calls of the React configuration land in front of
    the list of a fresh configuration. *)
Lemma reactExtensions_front (p : string) :
  reactExtensions p (resolveExtensions p empty)
  = qualified p "tsx" :: generic "tsx" :: resolveExtensions p empty.
Proof.
  unfold reactExtensions.
  destruct (String.eqb_spec p "visionos") as [->|Hp].
  - vm_compute. reflexivity.
  - rewrite (resolveExtensions_plain p Hp).
    destruct genericExtensions_plain as [Hnd Hdot].
    pose proof (pairs_NoDup p _ Hnd Hdot) as H. simpl in H.
    rewrite (prepend_fresh ".tsx").
    + rewrite prepend_fresh; [reflexivity | exact H].
    + now inversion H.
Qed.

Lemma adjacentb_complete (a b : string) (l : list string) :
  adjacent a b l -> adjacentb a b l = true.
Proof.
  intros [i [Ha Hb]]. revert i Ha Hb.
  induction l as [|x l IH]; intros i Ha Hb.
  - destruct i; discriminate Ha.
  - destruct l as [|y l].
    + destruct i as [|[|i]]; discriminate Hb.
    + destruct i as [|i]; simpl in Ha, Hb.
      * injection Ha as ->. injection Hb as ->.
        simpl. now rewrite !String.eqb_refl.
      * change (adjacentb a b (x :: y :: l))
          with ((String.eqb x a && String.eqb y b) || adjacentb a b (y :: l)).
        rewrite (IH i Ha Hb). apply orb_true_r.
Qed.

End ExtensionFacts.

(** * The extension list of a build *)

Section ExtensionClaims.

Import ChainedSet Spec.

(** C2, as stated, fails: for visionos and the single generic extension
    ts the list is not [.visionos.ts, .ts, .ios.ts]. *)
Lemma visionos_ts_order_counterexample :
  buildExtensionList "visionos" ["ts"] <> [".visionos.ts"; ".ts"; ".ios.ts"].
Proof. vm_compute. discriminate. Qed.

(** C2, amended: for visionos and the single generic extension ts the
    list is [.visionos.ts, .ios.ts, .ts]: the ios entry comes right after
    the visionos entry and before the generic one, which occurs once.
    The list that base.ts builds starts with the same three entries. *)
Theorem visionos_ts_order :
  buildExtensionList "visionos" ["ts"] = [".visionos.ts"; ".ios.ts"; ".ts"]
  /\ NoDup (buildExtensionList "visionos" ["ts"])
  /\ count_occ string_dec (buildExtensionList "visionos" ["ts"]) ".ts" = 1
  /\ firstn 3 (values (resolveExtensions "visionos" empty))
     = [".visionos.ts"; ".ios.ts"; ".ts"].
Proof.
  split; [vm_compute; reflexivity|].
  split; [apply ofArray_NoDup|].
  split; vm_compute; reflexivity.
Qed.

(** C3, as stated, fails at the supported platform visionos: its
    [.visionos.ts] is not immediately before [.ts]. *)
Lemma qualified_before_generic_counterexample :
  In "visionos" supportedPlatforms
  /\ In "ts" genericExtensions
  /\ ~ adjacent (qualified "visionos" "ts") (generic "ts")
         (values (resolveExtensions "visionos" empty)).
Proof.
  split; [simpl; auto|]. split; [simpl; auto|].
  intros H. apply adjacentb_complete in H. vm_compute in H. discriminate H.
Qed.

(** C3, amended: for every platform and every generic extension e of
    the fixed set, [.e] is in the list of a fresh configuration; for a
    platform p other than visionos [.p.e] is immediately before [.e];
    for visionos [.visionos.e] is immediately before [.ios.e], which is
    immediately before [.e]. *)
Theorem qualified_before_generic (p e : string) :
  In e genericExtensions ->
  let l := values (resolveExtensions p empty) in
  In (generic e) l
  /\ (if String.eqb p "visionos"
      then adjacent (qualified p e) (qualified "ios" e) l
           /\ adjacent (qualified "ios" e) (generic e) l
      else adjacent (qualified p e) (generic e) l).
Proof.
  intros He l. subst l. unfold values.
  destruct (String.eqb_spec p "visionos") as [->|Hp].
  - rewrite resolveExtensions_visionos.
    simpl in He.
    destruct He as [<-|[<-|[<-|[<-|[<-|[<-|[]]]]]]];
      (split; [simpl; auto 20|]); split.
    all: try (now exists 0); try (now exists 1); try (now exists 3);
      try (now exists 4); try (now exists 6); try (now exists 7);
      try (now exists 9); try (now exists 10); try (now exists 12);
      try (now exists 13); try (now exists 15); try (now exists 16).
  - rewrite (resolveExtensions_plain p Hp).
    simpl in He.
    destruct He as [<-|[<-|[<-|[<-|[<-|[<-|[]]]]]]];
      (split; [simpl; auto 20|]).
    + now exists 0.
    + now exists 2.
    + now exists 4.
    + now exists 6.
    + now exists 8.
    + now exists 10.
Qed.

Lemma qualified_before_generic_witness :
  let l := values (resolveExtensions "android" empty) in
  In (generic "css") l /\ adjacent (qualified "android" "css") (generic "css") l.
Proof.
  apply (qualified_before_generic "android" "css").
  simpl. auto 10.
Defined.

(** C4, as stated, fails: in the list for visionos the entry [.ios.ts]
    has no [.visionos.ts] at a later position. *)
Lemma alias_entry_later_counterexample :
  ~ (forall i X e,
       nth_error (values (resolveExtensions "visionos" empty)) i
         = Some (X ++ ".ios." ++ e)%string ->
       exists j, i < j
                 /\ nth_error (values (resolveExtensions "visionos" empty)) j
                    = Some (X ++ ".visionos." ++ e)%string).
Proof.
  intros H.
  destruct (H 1 EmptyString "ts" eq_refl) as (j & Hlt & Hj).
  unfold values in Hj. rewrite resolveExtensions_visionos in Hj.
  do 19 (destruct j as [|j]; [simpl in Hj; try lia; try discriminate Hj|]).
  simpl in Hj. destruct j; discriminate Hj.
Qed.

(** Which strings of the visionos list read [X.ios.e]. *)
Ltac peel X H :=
  repeat (destruct X as [|? X];
          [ simpl in H; try discriminate H
          | simpl in H; try discriminate H;
            injection H as ? H; subst ]).

(** C4, amended: the list built for visionos has no duplicate entries,
    and every entry [X.ios.e] of it sits immediately after the entry
    [X.visionos.e], so the visionos spelling is tried first. *)
Theorem alias_entry_follows (i : nat) (X e : string) :
  nth_error (values (resolveExtensions "visionos" empty)) i
    = Some (X ++ ".ios." ++ e)%string ->
  NoDup (values (resolveExtensions "visionos" empty))
  /\ exists j, i = S j
               /\ nth_error (values (resolveExtensions "visionos" empty)) j
                  = Some (X ++ ".visionos." ++ e)%string.
Proof.
  intros H. split.
  - unfold resolveExtensions, aliasExtensions, merge, values. simpl String.eqb.
    cbv iota. apply ofArray_NoDup.
  - unfold values in *. rewrite resolveExtensions_visionos in *.
    do 18 (destruct i as [|i];
           [ simpl in H; injection H as H; symmetry in H; peel X H;
             try (injection H as <-; eexists; split; reflexivity)
           | ]).
    simpl in H. destruct i; discriminate H.
Qed.

Lemma alias_entry_follows_witness :
  NoDup (values (resolveExtensions "visionos" empty))
  /\ exists j, 4 = S j
               /\ nth_error (values (resolveExtensions "visionos" empty)) j
                  = Some (EmptyString ++ ".visionos." ++ "js")%string.
Proof.
  apply (alias_entry_follows 4 EmptyString "js").
  vm_compute. reflexivity.
Defined.

(** C7, as stated, fails: the tsx entries are not appended after the
    fixed set. *)
Lemma tsx_appended_counterexample :
  values (reactExtensions "ios" (resolveExtensions "ios" empty))
  <> values (resolveExtensions "ios" empty) ++ [".ios.tsx"; ".tsx"].
Proof. vm_compute. discriminate. Qed.

(** C7, amended: the React configuration puts [.p.tsx] and then [.tsx]
    in front of the list that base built, the platform-qualified entry
    immediately before the generic one and both before the entries of
    the fixed set. *)
Theorem tsx_prepended (p : string) :
  values (reactExtensions p (resolveExtensions p empty))
  = qualified p "tsx" :: generic "tsx" :: values (resolveExtensions p empty).
Proof.
  unfold values, reactExtensions.
  destruct (String.eqb_spec p "visionos") as [->|Hp].
  - vm_compute. reflexivity.
  - rewrite (resolveExtensions_plain p Hp).
    assert (H : NoDup (pairs p ("tsx" :: genericExtensions))).
    { apply pairs_NoDup; apply genericExtensions_plain. }
    change (pairs p ("tsx" :: genericExtensions))
      with (qualified p "tsx" :: generic "tsx" :: pairs p genericExtensions) in H.
    rewrite (prepend_fresh ".tsx") by now inversion H.
    now rewrite prepend_fresh.
Qed.

End ExtensionClaims.

(** * The stylesheet import resolver *)

Section StylesheetClaims.

Import Exec Stylesheet Spec.

Variable h : Host.
Variables id baseDir : string.

Lemma tryTargets_skip (t : string) (later : list string) (log : list event) :
  eligible h id t = false ->
  tryTargets h id baseDir (t :: later) log = tryTargets h id baseDir later log.
Proof.
  unfold eligible. intros H. simpl. now rewrite H.
Qed.

Lemma tryTargets_miss (t : string) (later : list string) (log : list event) :
  eligible h id t = true -> misses h id baseDir t ->
  tryTargets h id baseDir (t :: later) log
  = tryTargets h id baseDir later (log ++ probesOf h id baseDir t).
Proof.
  unfold eligible, misses, probesOf, candidate, platformRequestOf.
  intros He [Hr Hx]. simpl in *.
  rewrite He.
  unfold bind, tryCatch, callRequireResolve, callExistsSync, bind, emit, modify, ret, throw.
  rewrite Hr, Hx. now rewrite <- app_assoc.
Qed.

Lemma tryTargets_required (t : string) (later : list string) (log : list event)
    (path : string) :
  eligible h id t = true ->
  requireResolve h (fst (candidate h id baseDir t)) baseDir = Some path ->
  tryTargets h id baseDir (t :: later) log
  = (Returned path, log ++ [RequireResolve (fst (candidate h id baseDir t)) baseDir]).
Proof.
  unfold eligible, candidate, platformRequestOf.
  intros He Hr. simpl in *.
  rewrite He.
  unfold bind, tryCatch, callRequireResolve, bind, emit, modify, ret, throw.
  now rewrite Hr.
Qed.

Lemma tryTargets_exists (t : string) (later : list string) (log : list event) :
  eligible h id t = true ->
  requireResolve h (fst (candidate h id baseDir t)) baseDir = None ->
  existsSync h (snd (candidate h id baseDir t)) = true ->
  tryTargets h id baseDir (t :: later) log
  = (Returned (snd (candidate h id baseDir t)),
     log ++ probesOf h id baseDir t
         ++ [ConsoleLog ("resolving " ++ quoted id ++ " to "
                           ++ quoted (fst (candidate h id baseDir t)))]).
Proof.
  unfold eligible, probesOf, candidate, platformRequestOf.
  intros He Hr Hx. simpl in *.
  rewrite He.
  unfold bind, tryCatch, callRequireResolve, callExistsSync, bind, emit, modify, ret, throw.
  rewrite Hr, Hx. now rewrite <- !app_assoc.
Qed.

(** The targets that miss add their probes to the log and hand over to
    the targets after them. *)
Lemma tryTargets_misses (before rest : list string) (log : list event) :
  (forall u, In u before -> misses h id baseDir u) ->
  tryTargets h id baseDir (before ++ rest) log
  = tryTargets h id baseDir rest (log ++ probes h id baseDir before).
Proof.
  revert log; induction before as [|t before IH]; intros log Hm.
  - unfold probes. simpl. now rewrite app_nil_r.
  - change ((t :: before) ++ rest) with (t :: (before ++ rest)).
    destruct (eligible h id t) eqn:He.
    + rewrite tryTargets_miss by (auto; apply Hm; now left).
      rewrite IH by (intros u Hu; apply Hm; now right).
      unfold probes. simpl. rewrite He. simpl.
      now rewrite <- !app_assoc.
    + rewrite tryTargets_skip by assumption.
      rewrite IH by (intros u Hu; apply Hm; now right).
      unfold probes. simpl. now rewrite He.
Qed.

(** No lookup makes the resolver throw. *)
Lemma tryTargets_returns (targets : list string) (log : list event) :
  exists path log', tryTargets h id baseDir targets log = (Returned path, log').
Proof.
  revert log; induction targets as [|t later IH]; intros log.
  - now exists id, log.
  - simpl. destruct (negb _); [|apply IH].
    unfold bind, tryCatch, callRequireResolve, callExistsSync, bind, emit, modify, ret, throw.
    destruct (requireResolve h _ baseDir); [eauto|].
    destruct (existsSync h _); [eauto | apply IH].
Qed.

Variable platform : string.

(** C5: the resolver visits the platform-qualified candidate, then, for
    visionos only, the ios-qualified one, and never throws.  While the
    candidates before [t] miss, their lookups are logged in order and
    the resolver moves on; the first candidate found by
    [require.resolve] or by [existsSync] is returned; when every
    candidate misses the specifier itself is returned. *)
Theorem resolve_falls_through (log : list event) :
  (exists path log', resolve platform h id baseDir log = (Returned path, log'))
  /\ platformTargets platform
     = (if String.eqb platform "visionos" then ["visionos"; "ios"] else [platform])
  /\ (forall before t after,
        platformTargets platform = before ++ t :: after ->
        (forall u, In u before -> misses h id baseDir u) ->
        eligible h id t = true ->
        let c := candidate h id baseDir t in
        (forall path,
           requireResolve h (fst c) baseDir = Some path ->
           resolve platform h id baseDir log
           = (Returned path,
              log ++ probes h id baseDir before ++ [RequireResolve (fst c) baseDir]))
        /\ (requireResolve h (fst c) baseDir = None ->
            existsSync h (snd c) = true ->
            resolve platform h id baseDir log
            = (Returned (snd c),
               log ++ probes h id baseDir before ++ probesOf h id baseDir t
                   ++ [ConsoleLog ("resolving " ++ quoted id ++ " to "
                                     ++ quoted (fst c))])))
  /\ ((forall u, In u (platformTargets platform) -> misses h id baseDir u) ->
      resolve platform h id baseDir log
      = (Returned id, log ++ probes h id baseDir (platformTargets platform))).
Proof.
  unfold resolve. split; [apply tryTargets_returns|].
  split.
  { unfold platformTargets.
    destruct (String.eqb_spec platform "visionos") as [->|_]; reflexivity. }
  split.
  - intros before t after E Hm He. rewrite E.
    rewrite tryTargets_misses by assumption. split.
    + intros path Hr.
      rewrite (tryTargets_required _ _ _ path) by assumption.
      now rewrite <- app_assoc.
    + intros Hr Hx.
      rewrite tryTargets_exists by assumption.
      now rewrite <- !app_assoc.
  - intros Hm.
    rewrite <- (app_nil_r (platformTargets platform)) at 1.
    now rewrite tryTargets_misses.
Qed.

(** C10: a specifier without an extension comes back unchanged, and no
    lookup is made for it. *)
Theorem resolve_without_extension (log : list event) :
  extname h id = EmptyString ->
  resolve platform h id baseDir log = (Returned id, log).
Proof.
  intros Hext. unfold resolve.
  assert (Hskip : forall t, eligible h id t = false).
  { intros t. unfold eligible, platformExtOf. rewrite Hext. simpl.
    now rewrite includes_empty. }
  induction (platformTargets platform) as [|t later IH]; [reflexivity|].
  now rewrite tryTargets_skip.
Qed.

End StylesheetClaims.

(** On a project without the ios stylesheet, a visionos build looks for
    [theme.visionos.css], then for [theme.ios.css], and answers
    [theme.css]. *)
Lemma resolve_falls_through_witness :
  Stylesheet.resolve "visionos" Sample.bareHost "theme.css" "/app/src" []
  = (Exec.Returned "theme.css",
     [ Stylesheet.RequireResolve "theme.visionos.css" "/app/src";
       Stylesheet.ExistsSync "/app/src/theme.visionos.css";
       Stylesheet.RequireResolve "theme.ios.css" "/app/src";
       Stylesheet.ExistsSync "/app/src/theme.ios.css" ]).
Proof.
  apply (resolve_falls_through Sample.bareHost "theme.css" "/app/src" "visionos" []).
  intros u Hu. split; reflexivity.
Defined.

Lemma resolve_without_extension_witness :
  Stylesheet.resolve "visionos" Sample.host "theme" "/app/src" []
  = (Exec.Returned "theme", []).
Proof.
  apply (resolve_without_extension Sample.host "theme" "/app/src" "visionos" []).
  reflexivity.
Defined.

(** * Patterns *)

Section RegExpFacts.

Import RegExp Spec.

Lemma classify_word (c : ascii) : isWordChar c = true -> classify c = TChar c.
Proof.
  destruct c as [[] [] [] [] [] [] [] []]; intros H;
    vm_compute in H; try discriminate H; reflexivity.
Qed.

Lemma parseFrom_char (c : ascii) (rest : string) (top : frame) (stack : list frame) :
  classify c = TChar c ->
  parseFrom (String c rest) top stack = parseFrom rest (push (Chr c) top) stack.
Proof. intros H. cbn [parseFrom]. now rewrite H. Qed.

(** A word in a pattern is read as its characters. *)
Lemma parseFrom_word (w rest : string) (top : frame) (stack : list frame) :
  isWord w = true ->
  parseFrom (w ++ rest) top stack
  = parseFrom rest {| alts := alts top; cur := rev (lit w) ++ cur top |} stack.
Proof.
  revert top; induction w as [|c w IH]; intros top H.
  - destruct top; reflexivity.
  - simpl in H. apply andb_true_iff in H as [Hc Hw].
    change (String c w ++ rest)%string with (String c (w ++ rest)).
    rewrite parseFrom_char by now apply classify_word.
    rewrite IH by assumption. simpl.
    now rewrite <- app_assoc.
Qed.

Lemma join_one (sep n : string) : JS.join sep [n] = n.
Proof. reflexivity. Qed.

Lemma join_more (sep n m : string) (names : list string) :
  JS.join sep (n :: m :: names) = (n ++ sep ++ JS.join sep (m :: names))%string.
Proof. reflexivity. Qed.

Lemma parseFrom_bar (rest : string) (top : frame) (stack : list frame) :
  parseFrom (String "|" rest) top stack = parseFrom rest (nextAlternative top) stack.
Proof. reflexivity. Qed.

Lemma parseFrom_close (rest : string) (top outer : frame) (stack : list frame) :
  parseFrom (String ")" rest) top (outer :: stack)
  = parseFrom rest (push (Group (close top)) outer) stack.
Proof. reflexivity. Qed.

Lemma parseFrom_open (rest : string) (top : frame) (stack : list frame) :
  parseFrom (String "(" rest) top stack = parseFrom rest emptyFrame (top :: stack).
Proof. reflexivity. Qed.

Lemma parseFrom_escaped_dot (rest : string) (top : frame) (stack : list frame) :
  parseFrom (String "\" (String "." rest)) top stack
  = parseFrom rest (push (Chr ".") top) stack.
Proof. reflexivity. Qed.

(** The alternatives of a group of words, up to its closing bracket. *)
Lemma parseFrom_alternatives (names : list string) (n rest : string)
    (closed : list regex) (outer : frame) (stack : list frame) :
  Forall (fun w => isWord w = true) (n :: names) ->
  parseFrom (JS.join "|" (n :: names) ++ String ")" rest)
    {| alts := closed; cur := [] |} (outer :: stack)
  = parseFrom rest
      (push (Group (altOf (rev closed ++ map litSeq (n :: names)))) outer) stack.
Proof.
  revert n closed; induction names as [|m names IH]; intros n closed H.
  - inversion H as [|? ? Hn _]; subst.
    rewrite join_one, parseFrom_word, parseFrom_close by assumption.
    unfold close, nextAlternative. cbn [alts cur].
    rewrite app_nil_r, rev_involutive. reflexivity.
  - inversion H as [|? ? Hn Hrest]; subst.
    rewrite join_more, !append_assoc.
    rewrite parseFrom_word by assumption.
    change ("|" ++ JS.join "|" (m :: names) ++ String ")" rest)%string
      with (String "|" (JS.join "|" (m :: names) ++ String ")" rest)).
    rewrite parseFrom_bar.
    unfold nextAlternative. cbn [alts cur].
    rewrite app_nil_r, rev_involutive.
    rewrite IH by assumption.
    cbn [rev map]. rewrite <- app_assoc. reflexivity.
Qed.

Lemma parse_otherPlatforms (names : list string) :
  Forall (fun w => isWord w = true) names ->
  parse ("\.(" ++ JS.join "|" names ++ ")\.(\w+)$") = Some (otherPlatformsTree names).
Proof.
  intros H. unfold parse.
  destruct names as [|n names].
  - vm_compute. reflexivity.
  - change ("\.(" ++ JS.join "|" (n :: names) ++ ")\.(\w+)$")%string
      with (String "\" (String "." (String "("
              (JS.join "|" (n :: names) ++ String ")" "\.(\w+)$")))).
    rewrite parseFrom_escaped_dot, parseFrom_open.
    unfold emptyFrame at 1.
    rewrite parseFrom_alternatives by assumption.
    reflexivity.
Qed.

(** *** What the matcher does on the shapes of the two patterns *)

Lemma run_litSeq (w s : string) (k : string -> bool) :
  run (litSeq w) (w ++ s) k = k s.
Proof.
  induction w as [|c w IH]; [reflexivity|].
  unfold litSeq in *. simpl. now rewrite Ascii.eqb_refl.
Qed.

Lemma run_litSeq_inv (w s : string) (k : string -> bool) :
  run (litSeq w) s k = true -> exists s', s = (w ++ s')%string /\ k s' = true.
Proof.
  revert s; induction w as [|c w IH]; intros s H.
  - now exists s.
  - unfold litSeq in *. simpl in H.
    destruct s as [|d s]; [discriminate|]. simpl in H.
    apply andb_true_iff in H as [Hc H].
    apply Ascii.eqb_eq in Hc; subst d.
    destruct (IH _ H) as (s' & -> & Hk). now exists s'.
Qed.

Lemma run_altOf (r : regex) (rs : list regex) (s : string) (k : string -> bool) :
  run (altOf (r :: rs)) s k = existsb (fun r' => run r' s k) (r :: rs).
Proof.
  revert r; induction rs as [|r2 rs IH]; intros r.
  - simpl. now rewrite orb_false_r.
  - change (altOf (r :: r2 :: rs)) with (Alt r (altOf (r2 :: rs))).
    cbn [run]. rewrite IH. reflexivity.
Qed.

(** [\w*] followed by the end of the input accepts the words. *)
Lemma star_word_end (k : string -> bool) (s : string) (fuel : nat) :
  (forall s', k s' = atEnd s') ->
  String.length s <= fuel ->
  star (run WordChar) fuel s k = isWord s.
Proof.
  intros Hk. revert fuel; induction s as [|c s IH]; intros fuel Hlen.
  - destruct fuel; simpl; now rewrite Hk.
  - destruct fuel as [|fuel]; [simpl in Hlen; lia|].
    simpl in Hlen. cbn [star run oneChar isWord].
    rewrite (Hk (String c s)). cbn [atEnd]. rewrite orb_false_r.
    rewrite IH by lia.
    replace (String.length s <? String.length (String c s))%nat with true.
    + reflexivity.
    + symmetry. apply Nat.ltb_lt. simpl. lia.
Qed.

Lemma run_word_end (k : string -> bool) (s : string) :
  (forall s', k s' = atEnd s') ->
  run (Plus WordChar) s k = negb (String.eqb s EmptyString) && isWord s.
Proof.
  intros Hk. destruct s as [|c s]; [reflexivity|].
  cbn [run oneChar isWord]. rewrite star_word_end by auto. reflexivity.
Qed.

Lemma alternatives_In (names : list string) (n : string) :
  In n names -> In n (alternatives names).
Proof. destruct names; [intros [] | auto]. Qed.

Lemma run_alternatives (names : list string) (s : string) (k : string -> bool) :
  run (altOf (map litSeq (alternatives names))) s k
  = existsb (fun r => run r s k) (map litSeq (alternatives names)).
Proof.
  destruct (alternatives names) as [|n rest] eqn:E.
  - destruct names; discriminate E.
  - cbn [map]. apply run_altOf.
Qed.

Lemma run_wordTail (s : string) : run wordTail s accept = dotWordEnd s.
Proof.
  destruct s as [|d w]; [reflexivity|].
  unfold wordTail. cbn [run oneChar dotWordEnd]. f_equal.
  apply run_word_end. intros []; reflexivity.
Qed.

Lemma run_otherPlatformsTree (names : list string) (c : ascii) (t : string) :
  run (otherPlatformsTree names) (String c t) accept
  = Ascii.eqb "." c
    && run (altOf (map litSeq (alternatives names))) t
         (fun s' => run wordTail s' accept).
Proof. reflexivity. Qed.

Lemma run_otherPlatformsTree_intro (names : list string) (n w : string) :
  In n (alternatives names) -> isWord w = true -> w <> EmptyString ->
  run (otherPlatformsTree names) ("." ++ n ++ "." ++ w) accept = true.
Proof.
  intros Hn Hw Hne.
  change ("." ++ n ++ "." ++ w)%string with (String "." (n ++ String "." w)).
  rewrite run_otherPlatformsTree, Ascii.eqb_refl. cbn [andb].
  rewrite run_alternatives. apply existsb_exists.
  exists (litSeq n). split; [now apply in_map|].
  rewrite run_litSeq, run_wordTail. cbn [dotWordEnd].
  rewrite Ascii.eqb_refl, Hw. apply String.eqb_neq in Hne. now rewrite Hne.
Qed.

Lemma run_otherPlatformsTree_inv (names : list string) (t : string) :
  run (otherPlatformsTree names) t accept = true ->
  exists n w, In n (alternatives names) /\ isWord w = true /\ w <> EmptyString
              /\ t = ("." ++ n ++ "." ++ w)%string.
Proof.
  intros H. destruct t as [|c t1]; [discriminate H|].
  rewrite run_otherPlatformsTree in H. apply andb_true_iff in H as [Hc H].
  apply Ascii.eqb_eq in Hc; subst c.
  rewrite run_alternatives in H. apply existsb_exists in H as (r & Hr & H).
  apply in_map_iff in Hr as (n & <- & Hn).
  apply run_litSeq_inv in H as (s' & -> & H).
  rewrite run_wordTail in H.
  destruct s' as [|d w]; [discriminate H|]. cbn [dotWordEnd] in H.
  apply andb_true_iff in H as [Hd H]. apply andb_true_iff in H as [Hne Hw].
  apply Ascii.eqb_eq in Hd; subst d.
  exists n, w. repeat split; auto.
  apply negb_true_iff, String.eqb_neq in Hne. exact Hne.
Qed.

(** [test] looks for a match at every suffix. *)
Lemma test_intro (re : regex) (pre t : string) :
  run re t accept = true -> test re (pre ++ t) = true.
Proof.
  intros H. induction pre as [|c pre IH]; simpl.
  - destruct t; simpl; fold accept; now rewrite H.
  - rewrite IH. apply orb_true_r.
Qed.

Lemma test_inv (re : regex) (s : string) :
  test re s = true -> exists pre t, s = (pre ++ t)%string /\ run re t accept = true.
Proof.
  induction s as [|c s IH]; simpl; intros H.
  - rewrite orb_false_r in H. now exists EmptyString, EmptyString.
  - apply orb_true_iff in H as [H|H].
    + now exists EmptyString, (String c s).
    + destruct (IH H) as (pre & t & -> & Ht). now exists (String c pre), t.
Qed.

(** *** Dots *)

Lemma isWord_no_dot (w : string) : isWord w = true -> hasDot w = false.
Proof.
  induction w as [|c w IH]; [reflexivity|]. simpl. intros H.
  apply andb_true_iff in H as [Hc Hw]. rewrite (IH Hw), orb_false_r.
  destruct (Ascii.eqb_spec c "."); [subst; discriminate Hc | reflexivity].
Qed.

(** A string has one last dot. *)
Lemma last_dot_unique (u v x y : string) :
  hasDot x = false -> hasDot y = false ->
  (u ++ String "." x = v ++ String "." y)%string -> u = v /\ x = y.
Proof.
  intros Hx Hy. revert v; induction u as [|c u IH]; intros [|d v] H; simpl in H.
  - injection H as H. auto.
  - injection H as Hd H. subst x.
    rewrite hasDot_append in Hx. simpl in Hx. now rewrite orb_true_r in Hx.
  - injection H as Hc H. subst y.
    rewrite hasDot_append in Hy. simpl in Hy. now rewrite orb_true_r in Hy.
  - injection H as -> H. destruct (IH _ H) as [-> ->]. auto.
Qed.

(** *** The App_Resources pattern *)

Lemma parse_appResources : parse Exclusion.appResourcesSource = Some appResourcesTree.
Proof. vm_compute. reflexivity. Qed.

Lemma run_lit_then (w s : string) (rs : list regex) (k : string -> bool) :
  run (seqOf (lit w ++ rs)) (w ++ s) k = run (seqOf rs) s k.
Proof.
  induction w as [|c w IH]; [reflexivity|].
  simpl. now rewrite Ascii.eqb_refl.
Qed.

Lemma run_lit_then_inv (w s : string) (rs : list regex) (k : string -> bool) :
  run (seqOf (lit w ++ rs)) s k = true -> JS.startsWith w s = true.
Proof.
  revert s; induction w as [|c w IH]; intros s H.
  - apply startsWith_empty.
  - destruct s as [|d s]; [discriminate H|]. simpl in H.
    apply andb_true_iff in H as [Hc H]. simpl. rewrite Hc. now apply IH.
Qed.

Lemma star_skip (m : string -> (string -> bool) -> bool) (fuel : nat)
    (s : string) (k : string -> bool) :
  k s = true -> star m fuel s k = true.
Proof. intros H. destruct fuel; simpl; rewrite H; [reflexivity | apply orb_true_r]. Qed.

Lemma star_any_inv (fuel : nat) (s : string) (k : string -> bool) :
  star (run AnyChar) fuel s k = true ->
  exists pre s', s = (pre ++ s')%string /\ k s' = true.
Proof.
  revert s; induction fuel as [|fuel IH]; intros s H; simpl in H.
  - now exists EmptyString, s.
  - apply orb_true_iff in H as [H|H]; [|now exists EmptyString, s].
    destruct s as [|c s]; [discriminate H|]. simpl in H.
    apply andb_true_iff in H as [_ H]. apply andb_true_iff in H as [_ H].
    destruct (IH _ H) as (pre & s' & -> & Hk). now exists (String c pre), s'.
Qed.

(** The pattern tests true on the paths that mention App_Resources. *)
Lemma test_appResources (s : string) :
  test appResourcesTree s = JS.includes s "App_Resources".
Proof.
  apply eq_true_iff_eq. split; intros H.
  - apply test_inv in H as (pre & t & -> & H).
    unfold appResourcesTree, anything in H. cbn [run] in H.
    apply star_any_inv in H as (pre' & t' & -> & H).
    apply run_lit_then_inv, startsWith_inv in H as [rest ->].
    rewrite <- append_assoc. apply includes_intro.
  - apply includes_inv in H as (pre & post & ->).
    apply test_intro. unfold appResourcesTree, anything. cbn [run].
    apply star_skip. rewrite run_lit_then. simpl. now apply star_skip.
Qed.

End RegExpFacts.

(** * The exclusion patterns of a build *)

Section ExclusionClaims.

Import RegExp Spec Exclusion.

Lemma isPlatformName_word (n : string) : isPlatformName n = true -> isWord n = true.
Proof. unfold isPlatformName. intros H. now apply andb_true_iff in H. Qed.

Lemma otherPlatforms_words (available : list string) (active : string) :
  Forall (fun n => isPlatformName n = true) available ->
  Forall (fun w => isWord w = true) (otherPlatforms available active).
Proof.
  intros H. apply Forall_forall. intros n Hn.
  apply filter_In in Hn as [Hn _].
  rewrite Forall_forall in H. now apply isPlatformName_word, H.
Qed.

Lemma parse_otherPlatformsSource (available : list string) (active : string) :
  Forall (fun n => isPlatformName n = true) available ->
  parse (otherPlatformsSource available active)
  = Some (otherPlatformsTree (otherPlatforms available active)).
Proof.
  intros H. unfold otherPlatformsSource, otherPlatformsRE.
  now apply parse_otherPlatforms, otherPlatforms_words.
Qed.

Lemma buildExclusionPatterns_trees (available : list string) (active : string) :
  Forall (fun n => isPlatformName n = true) available ->
  buildExclusionPatterns active available
  = Some [appResourcesTree; otherPlatformsTree (otherPlatforms available active)].
Proof.
  intros H. unfold buildExclusionPatterns.
  now rewrite parse_appResources, parse_otherPlatformsSource.
Qed.

(** The pattern of the other platforms tests true on a path that ends
    with the suffix of one of them and a word. *)
Lemma otherPlatforms_match (available : list string) (active q pre w : string) :
  In q available -> q <> active -> isWord w = true -> w <> EmptyString ->
  test (otherPlatformsTree (otherPlatforms available active))
    (pre ++ "." ++ q ++ "." ++ w) = true.
Proof.
  intros Hq Hne Hw Hw'. apply test_intro, run_otherPlatformsTree_intro; auto.
  apply alternatives_In, filter_In. split; [assumption|].
  unfold JS.strictNe. apply negb_true_iff, String.eqb_neq, Hne.
Qed.

(** It tests false on a path that ends with the suffix of the active
    platform. *)
Lemma otherPlatforms_spare_active (available : list string) (active pre w : string) :
  Forall (fun n => isPlatformName n = true) available ->
  isPlatformName active = true -> hasDot w = false ->
  test (otherPlatformsTree (otherPlatforms available active))
    (pre ++ "." ++ active ++ "." ++ w) = false.
Proof.
  intros Hav Hact Hw. apply not_true_is_false. intros H.
  apply test_inv in H as (pre0 & t & E & H).
  apply run_otherPlatformsTree_inv in H as (n & w0 & Hn & Hw0 & _ & ->).
  assert (Hn' : isWord n = true /\ n <> active).
  { unfold alternatives in Hn.
    destruct (otherPlatforms available active) as [|m rest] eqn:Eo.
    - destruct Hn as [<-|[]]. split; [reflexivity|].
      intros <-. discriminate Hact.
    - rewrite <- Eo in Hn. apply filter_In in Hn as [Hn Hne]. split.
      + rewrite Forall_forall in Hav. now apply isPlatformName_word, Hav.
      + unfold JS.strictNe in Hne. now apply negb_true_iff, String.eqb_neq in Hne. }
  destruct Hn' as [Hnw Hne].
  change (pre ++ "." ++ active ++ "." ++ w)%string
    with (pre ++ String "." (active ++ String "." w))%string in E.
  change (pre0 ++ "." ++ n ++ "." ++ w0)%string
    with (pre0 ++ String "." (n ++ String "." w0))%string in E.
  change (String "." (active ++ String "." w))
    with (String "." active ++ String "." w)%string in E.
  change (String "." (n ++ String "." w0))
    with (String "." n ++ String "." w0)%string in E.
  rewrite <- !append_assoc in E.
  apply last_dot_unique in E as [E _]; [|assumption|now apply isWord_no_dot].
  apply last_dot_unique in E as [_ E];
    [|now apply isWord_no_dot, isPlatformName_word|now apply isWord_no_dot].
  now subst.
Qed.

(** C1, as stated, fails: on an ios build the patterns together match
    a path under App_Resources that ends in [.ios.ts]. *)
Lemma exclusion_patterns_counterexample :
  exists patterns,
    buildExclusionPatterns "ios" ["android"; "ios"; "visionos"] = Some patterns
    /\ excluded patterns ("App_Resources/iOS/main" ++ "." ++ "ios" ++ ".ts") = true.
Proof.
  exists [appResourcesTree; otherPlatformsTree ["android"; "visionos"]].
  split; vm_compute; reflexivity.
Qed.

(** C1, amended: for platform names that are words, an active platform
    p and another known platform q, the pattern of the other platforms
    matches no path ending in [.p.ts]; the two patterns together match
    such a path exactly when it mentions App_Resources, and they match
    every path ending in [.q.ts]. *)
Theorem exclusion_patterns (available : list string) (p q pre pre' : string) :
  Forall (fun n => isPlatformName n = true) available ->
  In p available -> In q available -> q <> p ->
  exists appResources others,
    buildExclusionPatterns p available = Some [appResources; others]
    /\ test others (pre ++ "." ++ p ++ ".ts") = false
    /\ excluded [appResources; others] (pre ++ "." ++ p ++ ".ts")
       = JS.includes (pre ++ "." ++ p ++ ".ts") "App_Resources"
    /\ excluded [appResources; others] (pre' ++ "." ++ q ++ ".ts") = true.
Proof.
  intros Hav Hp Hq Hne.
  exists appResourcesTree, (otherPlatformsTree (otherPlatforms available p)).
  assert (Hact : isPlatformName p = true).
  { rewrite Forall_forall in Hav. now apply Hav. }
  pose proof (otherPlatforms_spare_active available p pre "ts" Hav Hact eq_refl) as Hno.
  split; [now apply buildExclusionPatterns_trees|].
  split; [exact Hno|]. split.
  - unfold excluded. cbn [existsb].
    change (pre ++ "." ++ p ++ ".ts")%string
      with (pre ++ "." ++ p ++ "." ++ "ts")%string.
    rewrite Hno, test_appResources. now rewrite !orb_false_r.
  - unfold excluded. cbn [existsb].
    change (pre' ++ "." ++ q ++ ".ts")%string
      with (pre' ++ "." ++ q ++ "." ++ "ts")%string.
    rewrite (otherPlatforms_match available p q pre' "ts") by (auto; discriminate).
    apply orb_true_iff. right. reflexivity.
Qed.

Lemma exclusion_patterns_witness :
  exists appResources others,
    buildExclusionPatterns "android" ["android"; "ios"; "visionos"]
      = Some [appResources; others]
    /\ test others ("foo" ++ "." ++ "android" ++ ".ts") = false
    /\ excluded [appResources; others] ("foo" ++ "." ++ "android" ++ ".ts")
       = JS.includes ("foo" ++ "." ++ "android" ++ ".ts") "App_Resources"
    /\ excluded [appResources; others] ("foo" ++ "." ++ "ios" ++ ".ts") = true.
Proof.
  apply (exclusion_patterns ["android"; "ios"; "visionos"] "android" "ios" "foo" "foo").
  - repeat constructor.
  - simpl. auto.
  - simpl. auto.
  - discriminate.
Defined.

(** C9: on a visionos build whose known platforms include ios, the
    pattern of the other platforms matches every path that ends in
    [.ios.] and a word, although the extension list of the same build
    carries the [.ios.] entry of every generic extension. *)
Theorem ios_excluded_on_visionos (available : list string) (pre w : string) :
  Forall (fun n => isPlatformName n = true) available ->
  In "ios" available ->
  isWord w = true -> w <> EmptyString ->
  exists others,
    parse (otherPlatformsSource available "visionos") = Some others
    /\ test others (pre ++ ".ios." ++ w) = true
    /\ Forall (fun e => In (qualified "ios" e)
                          (ChainedSet.values (resolveExtensions "visionos" ChainedSet.empty)))
         genericExtensions.
Proof.
  intros Hav Hios Hw Hne.
  exists (otherPlatformsTree (otherPlatforms available "visionos")).
  split; [now apply parse_otherPlatformsSource|]. split.
  - change (pre ++ ".ios." ++ w)%string with (pre ++ "." ++ "ios" ++ "." ++ w)%string.
    apply otherPlatforms_match; auto. discriminate.
  - unfold ChainedSet.values. rewrite resolveExtensions_visionos.
    repeat (apply Forall_cons; [simpl; tauto|]). apply Forall_nil.
Qed.

Lemma ios_excluded_on_visionos_witness :
  exists others,
    parse (otherPlatformsSource ["android"; "ios"; "visionos"] "visionos") = Some others
    /\ test others ("app/home" ++ ".ios." ++ "css") = true
    /\ Forall (fun e => In (qualified "ios" e)
                          (ChainedSet.values (resolveExtensions "visionos" ChainedSet.empty)))
         genericExtensions.
Proof.
  apply (ios_excluded_on_visionos ["android"; "ios"; "visionos"] "app/home" "css").
  - repeat constructor.
  - simpl. auto.
  - reflexivity.
  - discriminate.
Defined.

End ExclusionClaims.

(** * One run of base *)

Section BaseFacts.

Import Exec Config Platform Base Spec.

Context {CopyRules : Type} (helpers : Helpers CopyRules).

Lemma isKnown_In (amb : Ambient) (id : string) :
  isKnown amb id = true <-> In id (getAvailablePlatforms amb).
Proof. apply has_In. Qed.

Lemma getPlatformName_known {St} (amb : Ambient) (st : St) :
  isKnown amb (requested amb) = true ->
  getPlatformName amb st = (Returned (requested amb), st).
Proof. intros H. unfold getPlatformName. now rewrite H. Qed.

Lemma getPlatformName_unknown {St} (amb : Ambient) (st : St) :
  isKnown amb (requested amb) = false ->
  getPlatformName amb st = (Thrown (ConfigurationError (requested amb)), st).
Proof. intros H. unfold getPlatformName. now rewrite H. Qed.

Lemma plugin_setEntry_same (name : string) (a : pluginArgs)
    (entries : list (string * pluginArgs)) :
  plugin name (setEntry name a entries) = Some a.
Proof.
  induction entries as [|[n b] rest IH]; simpl.
  - now rewrite String.eqb_refl.
  - destruct (String.eqb n name) eqn:E; simpl; now rewrite E.
Qed.

Lemma plugin_setEntry_other (name other : string) (a : pluginArgs)
    (entries : list (string * pluginArgs)) :
  other <> name ->
  plugin name (setEntry other a entries) = plugin name entries.
Proof.
  intros Hne. induction entries as [|[n b] rest IH]; simpl.
  - apply String.eqb_neq in Hne. now rewrite Hne.
  - destruct (String.eqb n other) eqn:E; simpl.
    + apply String.eqb_eq in E; subst n.
      apply String.eqb_neq in Hne. now rewrite Hne.
    + now rewrite IH.
Qed.

Lemma bind_run {St A B} (m : M St A) (f : A -> M St B) (st : St) :
  bind m f st
  = match m st with
    | (Returned a, st') => f a st'
    | (Thrown e, st') => (Thrown e, st')
    end.
Proof. reflexivity. Qed.

Lemma when_onConfig (c : bool) (f : Config.t -> Config.t) (b : Build CopyRules) :
  when c (onConfig f) b = onConfig (applyIf c f) b.
Proof. destruct c, b; reflexivity. Qed.

(** The callback of line 432 keeps the platforms other than the
    requested one. *)
Lemma filterM_others (amb : Ambient) (arr : list string) (b : Build CopyRules) :
  isKnown amb (requested amb) = true ->
  filterM (fun platform =>
             active <- getPlatformName amb ;;
             ret (JS.strictNe platform active)) arr b
  = (Returned (Exclusion.otherPlatforms arr (requested amb)), b).
Proof.
  intros H. induction arr as [|x arr IH]; [reflexivity|].
  cbn [filterM]. unfold bind at 1. unfold bind at 1.
  rewrite getPlatformName_known by assumption.
  unfold ret at 1. unfold bind at 1. rewrite IH. unfold ret.
  reflexivity.
Qed.

(** The steps of base that leave the extension set and the two
    exclusion plugins alone. *)
Lemma keeps_setMode (m : string) : keepsResolution (setMode m).
Proof. intros c. split; reflexivity. Qed.

Lemma keeps_onBundle (f : ChainedSet.t -> ChainedSet.t) : keepsResolution (onBundle f).
Proof. intros c. split; reflexivity. Qed.

Lemma keeps_onInspectorModules (f : ChainedSet.t -> ChainedSet.t) :
  keepsResolution (onInspectorModules f).
Proof. intros c. split; reflexivity. Qed.

Lemma keeps_setImportPlatform (p : string) : keepsResolution (setImportPlatform p).
Proof. intros c. split; reflexivity. Qed.

Lemma keeps_usePlugin (name : string) (a : pluginArgs) :
  ~ In name exclusionNames -> keepsResolution (usePlugin name a).
Proof.
  intros Hname c. split; [reflexivity|].
  intros n Hn. cbn [usePlugin plugins]. apply plugin_setEntry_other.
  intros ->. contradiction.
Qed.

Lemma keeps_applyIf (c : bool) (f : Config.t -> Config.t) :
  keepsResolution f -> keepsResolution (applyIf c f).
Proof. intros H x. unfold applyIf. destruct c; [apply H | split; reflexivity]. Qed.

Lemma keeps_extensions (f : Config.t -> Config.t) (x : Config.t) :
  keepsResolution f -> extensions (f x) = extensions x.
Proof. intros H. apply H. Qed.

Lemma keeps_plugin (f : Config.t -> Config.t) (x : Config.t) (name : string) :
  keepsResolution f -> In name exclusionNames ->
  plugin name (plugins (f x)) = plugin name (plugins x).
Proof. intros H Hn. now apply H. Qed.

Lemma plugin_usePlugin_same (name : string) (a : pluginArgs) (x : Config.t) :
  plugin name (plugins (usePlugin name a x)) = Some a.
Proof. apply plugin_setEntry_same. Qed.

Lemma plugin_usePlugin_other (name other : string) (a : pluginArgs) (x : Config.t) :
  other <> name ->
  plugin name (plugins (usePlugin other a x)) = plugin name (plugins x).
Proof. apply plugin_setEntry_other. Qed.

Lemma extensions_onExtensions (g : ChainedSet.t -> ChainedSet.t) (x : Config.t) :
  extensions (onExtensions g x) = g (extensions x).
Proof. reflexivity. Qed.

Lemma extensions_usePlugin (name : string) (a : pluginArgs) (x : Config.t) :
  extensions (usePlugin name a x) = extensions x.
Proof. reflexivity. Qed.

Lemma plugins_onExtensions (g : ChainedSet.t -> ChainedSet.t) (x : Config.t) :
  plugins (onExtensions g x) = plugins x.
Proof. reflexivity. Qed.

Create HintDb keeps.

Hint Resolve keeps_setMode keeps_onBundle keeps_onInspectorModules
  keeps_setImportPlatform keeps_applyIf : keeps.

Hint Extern 2 (keepsResolution (usePlugin _ _)) =>
  apply keeps_usePlugin; simpl; intuition discriminate : keeps.

Hint Extern 1 (In _ exclusionNames) => simpl; tauto : keeps.

(** Looks through the steps that keep the resolution. *)
Ltac frame :=
  repeat first
    [ rewrite plugin_usePlugin_same
    | rewrite plugin_usePlugin_other by discriminate
    | rewrite extensions_onExtensions
    | rewrite extensions_usePlugin
    | rewrite plugins_onExtensions
    | match goal with
      | |- context [extensions (?f ?x)] =>
          rewrite (keeps_extensions f x) by auto with keeps
      | |- context [plugin ?n (plugins (?f ?x))] =>
          rewrite (keeps_plugin f x n) by auto with keeps
      end ].

Lemma when_modify (c : bool) (f : Build CopyRules -> Build CopyRules)
    (b : Build CopyRules) :
  when c (modify f) b = (Returned tt, if c then f b else b).
Proof. destruct c; reflexivity. Qed.

(** What a run on a known platform leaves in the configuration: the
    extension set of lines 195-221, the App_Resources pattern, and the
    pattern of the other platforms when its text is a pattern. *)
Lemma base_resolution (amb : Ambient) (b : Build CopyRules) :
  helpersKeepResolution helpers ->
  isKnown amb (requested amb) = true ->
  let source := Exclusion.otherPlatformsSource (getAvailablePlatforms amb) (requested amb) in
  let r := base helpers amb b in
  extensionList (snd r)
  = ChainedSet.values (resolveExtensions (requested amb) (extensions (config b)))
  /\ match RegExp.parse source with
     | Some re =>
         fst r = Returned tt
         /\ exclusionSet (snd r)
            = [Some (ContextExclusion appResourcesTree); Some (ContextExclusion re)]
     | None =>
         fst r = Thrown (SyntaxError source)
         /\ exclusionSet (snd r)
            = [Some (ContextExclusion appResourcesTree);
               plugin "ContextExclusionPlugin|Other_Platforms" (plugins (config b))]
     end.
Proof.
  intros (Hdot & Hrep & Hcopy) Hknown source r.
  assert (Er : r = base helpers amb b) by reflexivity. clearbody r.
  unfold base, shouldIncludeInspectorModules, newRegExp, addAppComponents in Er.
  rewrite parse_appResources in Er.
  subst source.
  unfold Exclusion.otherPlatformsSource, Exclusion.otherPlatformsRE.
  repeat (rewrite bind_run in Er;
          try rewrite getPlatformName_known in Er by assumption;
          try rewrite filterM_others in Er by assumption;
          try rewrite when_onConfig in Er;
          try rewrite when_modify in Er;
          cbn [onConfig onCopyRules envFlag modify ret throw config env copyRules] in Er).
  destruct (RegExp.parse _) as [re|] eqn:Eparse.
  all: cbn [onConfig onCopyRules envFlag modify ret throw config env copyRules] in Er.
  all: repeat (rewrite bind_run in Er;
               try rewrite when_onConfig in Er;
               cbn [onConfig onCopyRules envFlag modify ret throw config env copyRules] in Er).
  all: try rewrite when_onConfig in Er.
  all: cbn [onConfig onCopyRules envFlag modify ret throw config env copyRules] in Er.
  all: subst r; unfold extensionList, exclusionSet, exclusionNames.
  all: cbn [fst snd map config copyRules onConfig modify].
  all: split; [frame | split; [reflexivity | frame]].
  all: try reflexivity.
  all: destruct (String.eqb (requested amb) "android"); cbn [config]; now frame.
Qed.

(** X27: on a known platform whose registered names are words, a run
    of base returns and registers exactly the two patterns of
    [buildExclusionPatterns], App_Resources first, as context
    exclusions. *)
Lemma base_exclusion_patterns (amb : Ambient) (b : Build CopyRules) :
  helpersKeepResolution helpers ->
  isKnown amb (requested amb) = true ->
  Forall (fun n => isPlatformName n = true) (getAvailablePlatforms amb) ->
  exists patterns,
    Exclusion.buildExclusionPatterns (requested amb) (getAvailablePlatforms amb)
      = Some patterns
    /\ fst (base helpers amb b) = Returned tt
    /\ exclusionSet (snd (base helpers amb b))
       = map (fun re => Some (ContextExclusion re)) patterns.
Proof.
  intros Hk Hknown Hnames.
  destruct (base_resolution amb b Hk Hknown) as [_ H].
  rewrite parse_otherPlatformsSource in H by assumption.
  eexists. split; [now apply buildExclusionPatterns_trees|]. exact H.
Qed.

Lemma base_unknown (amb : Ambient) (b : Build CopyRules) :
  ~ In (requested amb) (getAvailablePlatforms amb) ->
  base helpers amb b = (Thrown (ConfigurationError (requested amb)), b).
Proof.
  intros Hout.
  assert (Hunknown : isKnown amb (requested amb) = false).
  { apply not_true_is_false. intros H. now apply isKnown_In in H. }
  unfold base. rewrite bind_run.
  now rewrite getPlatformName_unknown by assumption.
Qed.

(** C6: for a platform identifier outside the known set, base (and the
    React configuration on top of it) throws the configuration error at
    its first use of the platform and leaves the configuration, the
    environment and the copy rules as they were: no extension, entry or
    plugin has been set for any platform. *)
Theorem unknown_platform_fails_fast (amb : Ambient) (b : Build CopyRules) :
  ~ In (requested amb) (getAvailablePlatforms amb) ->
  base helpers amb b = (Thrown (ConfigurationError (requested amb)), b)
  /\ react helpers amb b = (Thrown (ConfigurationError (requested amb)), b).
Proof.
  intros Hout.
  pose proof (base_unknown amb b Hout) as Hbase.
  split; [exact Hbase|].
  unfold react. rewrite bind_run. now rewrite Hbase.
Qed.

(** C8: two runs of base over the same platform table, on equal
    configurations, end alike, return or throw, and leave the same
    extension list and the same exclusion patterns, whatever [env]
    object and whatever copy rules each run starts from; in particular
    when the second run starts from the [env.appComponents] array and
    the copy rules that the first one has extended.  The helper modules
    are assumed to leave the extension set and the two exclusion plugins
    alone. *)
Theorem base_is_repeatable (amb : Ambient) (b b' : Build CopyRules) :
  helpersKeepResolution helpers ->
  config b = config b' ->
  let first := base helpers amb b in
  let again := base helpers amb b' in
  fst first = fst again
  /\ extensionList (snd first) = extensionList (snd again)
  /\ exclusionSet (snd first) = exclusionSet (snd again).
Proof.
  intros Hk Hc first again. subst first again.
  destruct (isKnown amb (requested amb)) eqn:Hknown.
  - destruct (base_resolution amb b Hk Hknown) as [E1 P1].
    destruct (base_resolution amb b' Hk Hknown) as [E2 P2].
    rewrite Hc in *.
    destruct (RegExp.parse _); destruct P1 as [O1 X1], P2 as [O2 X2];
      repeat split; congruence.
  - assert (Hout : ~ In (requested amb) (getAvailablePlatforms amb)).
    { intros H. apply isKnown_In in H. congruence. }
    rewrite !base_unknown by assumption.
    unfold extensionList, exclusionSet. cbn [fst snd]. now rewrite Hc.
Qed.

(** X28: a run of the React configuration on a configuration without
    extensions returns, and its extension list is the one of lines
    195-221 of base with [.p.tsx] and [.tsx] put in front by line 15. *)
Lemma react_extension_list (amb : Ambient) (b : Build CopyRules) :
  helpersKeepResolution helpers ->
  isKnown amb (requested amb) = true ->
  Forall (fun n => isPlatformName n = true) (getAvailablePlatforms amb) ->
  extensions (config b) = ChainedSet.empty ->
  fst (react helpers amb b) = Returned tt
  /\ extensionList (snd (react helpers amb b))
     = qualified (requested amb) "tsx" :: generic "tsx"
       :: ChainedSet.values (resolveExtensions (requested amb) ChainedSet.empty).
Proof.
  intros Hk Hknown Hnames Hfresh.
  destruct (base_resolution amb b Hk Hknown) as [Hext H].
  rewrite parse_otherPlatformsSource in H by assumption.
  destruct H as [Hret _]. rewrite Hfresh in Hext.
  unfold react. rewrite bind_run.
  destruct (base helpers amb b) as [o st]. cbn [fst snd] in Hret, Hext. subst o.
  rewrite bind_run, getPlatformName_known by assumption.
  repeat (rewrite bind_run;
          try rewrite when_onConfig;
          cbn [onConfig envFlag modify config env copyRules]).
  rewrite when_onConfig. unfold extensionList in *.
  cbn [onConfig modify fst snd config]. split; [reflexivity|].
  rewrite keeps_extensions
    by (apply keeps_applyIf, keeps_usePlugin; simpl; intuition discriminate).
  rewrite extensions_onExtensions.
  unfold ChainedSet.values in *. rewrite Hext.
  apply reactExtensions_front.
Qed.

End BaseFacts.

(** The sample helpers register plugins of their own and nothing else. *)
Lemma sample_helpers_keep : Spec.helpersKeepResolution Sample.helpers.
Proof.
  split; [|split; [|intros rules]].
  - apply keeps_usePlugin. simpl. intuition discriminate.
  - intros c. split; reflexivity.
  - apply keeps_usePlugin. simpl. intuition discriminate.
Defined.

Lemma unknown_platform_fails_fast_witness :
  Base.base Sample.helpers (Sample.ambient "windows") Sample.start
  = (Exec.Thrown (Exec.ConfigurationError "windows"), Sample.start)
  /\ Base.react Sample.helpers (Sample.ambient "windows") Sample.start
     = (Exec.Thrown (Exec.ConfigurationError "windows"), Sample.start).
Proof.
  apply (unknown_platform_fails_fast Sample.helpers (Sample.ambient "windows")
           Sample.start).
  simpl. intuition discriminate.
Defined.

(** What the first android run leaves behind: two more entries in the
    array of [env.appComponents], three copy rules. *)
Example sample_leftovers :
  let first := Base.base Sample.helpers (Sample.ambient "android") Sample.start in
  appComponents (Base.env (snd first))
  = ComponentArray [ "app/services/widget"; "@nativescript/core/ui/frame";
                     "@nativescript/core/ui/frame/activity" ]
  /\ Base.copyRules (snd first) = ["assets/**"; "fonts/**"; "**/*.+(jpg|png)"].
Proof. split; vm_compute; reflexivity. Qed.

(** A second android run on a fresh configuration, started from the
    environment and the copy rules that the first run left behind. *)
Lemma base_is_repeatable_witness :
  let first := Base.base Sample.helpers (Sample.ambient "android") Sample.start in
  let again := Base.base Sample.helpers (Sample.ambient "android")
                 {| Base.config := Config.fresh;
                    Base.env := Base.env (snd first);
                    Base.copyRules := Base.copyRules (snd first) |} in
  fst first = fst again
  /\ Base.extensionList (snd first) = Base.extensionList (snd again)
  /\ Base.exclusionSet (snd first) = Base.exclusionSet (snd again).
Proof.
  apply (base_is_repeatable Sample.helpers (Sample.ambient "android") Sample.start
           {| Base.config := Config.fresh;
              Base.env := Base.env (snd (Base.base Sample.helpers
                                           (Sample.ambient "android") Sample.start));
              Base.copyRules := Base.copyRules (snd (Base.base Sample.helpers
                                           (Sample.ambient "android") Sample.start)) |}).
  - exact sample_helpers_keep.
  - reflexivity.
Defined.

(** * Further properties *)

(** ** The extension set on any configuration *)

Section ExtensionSetFacts.

Import ChainedSet Spec Settled.

Lemma In_add_self (v : string) (store : t) : In v (add v store).
Proof.
  unfold add. destruct (has v store) eqn:E.
  - now apply has_In.
  - apply in_or_app. right. now left.
Qed.

Lemma In_add_keep (v x : string) (store : t) : In x store -> In x (add v store).
Proof.
  intros H. unfold add. destruct (has v store); [assumption|].
  apply in_or_app. now left.
Qed.

Lemma In_add_inv (v x : string) (store : t) : In x (add v store) -> x = v \/ In x store.
Proof.
  unfold add. destruct (has v store); [now right|].
  intros H. apply in_app_or in H as [H|[H|[]]]; auto.
Qed.

Lemma add_extends (v : string) (store : t) : exists tail, add v store = store ++ tail.
Proof.
  unfold add. destruct (has v store).
  - exists []. now rewrite app_nil_r.
  - now exists [v].
Qed.

Lemma addAll_extends (arr : list string) (store : t) :
  exists tail, fold_left (fun store value => add value store) arr store = store ++ tail.
Proof.
  revert store; induction arr as [|v arr IH]; intros store; simpl.
  - exists []. now rewrite app_nil_r.
  - destruct (add_extends v store) as [t1 E1]. destruct (IH (add v store)) as [t2 E2].
    exists (t1 ++ t2). now rewrite E2, E1, app_assoc.
Qed.

Lemma addAll_In (arr : list string) (store : t) (x : string) :
  In x (fold_left (fun store value => add value store) arr store)
  <-> In x arr \/ In x store.
Proof.
  revert store; induction arr as [|v arr IH]; intros store; simpl.
  - tauto.
  - rewrite IH. split.
    + intros [H|H]; [tauto|]. apply In_add_inv in H as [->|H]; auto.
    + intros [[<-|H]|H]; auto using In_add_self, In_add_keep.
Qed.

Lemma addAll_present (arr : list string) (store : t) :
  (forall x, In x arr -> In x store) ->
  fold_left (fun store value => add value store) arr store = store.
Proof.
  revert store; induction arr as [|v arr IH]; intros store H; simpl; [reflexivity|].
  rewrite add_present by (apply H; now left).
  apply IH. intros x Hx. apply H. now right.
Qed.

Lemma ofArray_In (arr : list string) (x : string) : In x (ofArray arr) <-> In x arr.
Proof. unfold ofArray. rewrite addAll_In. unfold empty. simpl. tauto. Qed.

(** The loop of lines 213-218 pushes, extension by extension, the
    extension and its ios spelling. *)
Lemma withIosFallback_flat_map (extensions : list string) :
  withIosFallback extensions = flat_map fallbackOf extensions.
Proof.
  unfold withIosFallback.
  assert (G : forall acc,
            fold_left
              (fun newExtensions ext =>
                 let newExtensions := newExtensions ++ [ext] in
                 if JS.includes ext "visionos"
                 then newExtensions ++ [JS.replace ext "visionos" "ios"]
                 else newExtensions) extensions acc
            = acc ++ flat_map fallbackOf extensions).
  { induction extensions as [|ext rest IH]; intros acc; simpl.
    - now rewrite app_nil_r.
    - rewrite IH. unfold fallbackOf.
      destruct (JS.includes ext "visionos"); simpl; now rewrite <- !app_assoc. }
  apply (G []).
Qed.

Lemma aliasExtensions_In (platform x : string) (store : t) :
  In x store -> In x (aliasExtensions platform store).
Proof.
  intros H. unfold aliasExtensions. destruct (String.eqb platform "visionos"); [|assumption].
  unfold merge, clear, values, empty. simpl app.
  apply ofArray_In. rewrite withIosFallback_flat_map. apply in_flat_map.
  exists x. split; [assumption|]. unfold fallbackOf.
  destruct (JS.includes x "visionos"); now left.
Qed.

Lemma aliasExtensions_ios (x : string) (store : t) :
  In x store -> JS.includes x "visionos" = true ->
  In (JS.replace x "visionos" "ios") (aliasExtensions "visionos" store).
Proof.
  intros H Hx. unfold aliasExtensions. simpl String.eqb. cbv iota.
  unfold merge, clear, values, empty. simpl app.
  apply ofArray_In. rewrite withIosFallback_flat_map. apply in_flat_map.
  exists x. split; [assumption|]. unfold fallbackOf. rewrite Hx. right. now left.
Qed.

Lemma addExtensionsOf_In (platform : string) (exts : list string) (store : t) (x : string) :
  In x (addExtensionsOf platform exts store) <-> In x (pairs platform exts) \/ In x store.
Proof.
  revert store; induction exts as [|e exts IH]; intros store.
  - simpl. tauto.
  - unfold addExtensionsOf in *. simpl fold_left. rewrite IH.
    change (pairs platform (e :: exts))
      with (qualified platform e :: generic e :: pairs platform exts).
    split.
    + intros [H|H]; [simpl; tauto|].
      apply In_add_inv in H as [->|H]; [simpl; tauto|].
      apply In_add_inv in H as [->|H]; simpl; tauto.
    + intros [[<-|[<-|H]]|H]; auto using In_add_self, In_add_keep.
Qed.

Lemma addExtensionsOf_extends (platform : string) (exts : list string) (store : t) :
  exists tail, addExtensionsOf platform exts store = store ++ tail.
Proof.
  revert store; induction exts as [|e exts IH]; intros store.
  - exists []. simpl. now rewrite app_nil_r.
  - unfold addExtensionsOf in *. simpl fold_left.
    destruct (add_extends (qualified platform e) store) as [t1 E1].
    destruct (add_extends (generic e) (add (qualified platform e) store)) as [t2 E2].
    destruct (IH (add (generic e) (add (qualified platform e) store))) as [t3 E3].
    exists (t1 ++ t2 ++ t3). rewrite E3, E2, E1. now rewrite <- !app_assoc.
Qed.

Lemma addExtensionsOf_NoDup (platform : string) (exts : list string) (store : t) :
  NoDup store -> NoDup (addExtensionsOf platform exts store).
Proof.
  revert store; induction exts as [|e exts IH]; intros store H; [assumption|].
  unfold addExtensionsOf in *. simpl fold_left. now apply IH, add_NoDup, add_NoDup.
Qed.

Lemma addExtensionsOf_present (platform : string) (exts : list string) (store : t) :
  (forall x, In x (pairs platform exts) -> In x store) ->
  addExtensionsOf platform exts store = store.
Proof.
  revert store; induction exts as [|e exts IH]; intros store H; [reflexivity|].
  unfold addExtensionsOf in *. simpl fold_left.
  rewrite (add_present (qualified platform e)) by (apply H; simpl; auto).
  rewrite (add_present (generic e)) by (apply H; simpl; auto).
  apply IH. intros x Hx. apply H. simpl. auto.
Qed.

End ExtensionSetFacts.

Section ExtensionSetProperties.

Import ChainedSet Spec Settled.

(** X1: whatever the extension set held before, after lines 195-221 it
    holds the platform-qualified and the generic entry of every generic
    extension, and on visionos the ios-qualified entry as well. *)
Theorem extensions_always_present (p e : string) (store : t) :
  In e genericExtensions ->
  In (qualified p e) (resolveExtensions p store)
  /\ In (generic e) (resolveExtensions p store)
  /\ In (qualified "ios" e) (resolveExtensions "visionos" store).
Proof.
  intros He.
  assert (Hq : forall p', In (qualified p' e) (addExtensions p' store)).
  { intros p'. rewrite addExtensions_generic. apply addExtensionsOf_In. left.
    unfold pairs. apply in_flat_map. exists e. split; [assumption | now left]. }
  assert (Hg : In (generic e) (addExtensions p store)).
  { rewrite addExtensions_generic. apply addExtensionsOf_In. left.
    unfold pairs. apply in_flat_map. exists e. split; [assumption | right; now left]. }
  unfold resolveExtensions. split; [|split].
  - apply aliasExtensions_In, Hq.
  - apply aliasExtensions_In, Hg.
  - assert (E : JS.includes (qualified "visionos" e) "visionos" = true
                /\ JS.replace (qualified "visionos" e) "visionos" "ios" = qualified "ios" e).
    { simpl in He.
      destruct He as [<-|[<-|[<-|[<-|[<-|[<-|[]]]]]]]; split; vm_compute; reflexivity. }
    destruct E as [Ei Er]. rewrite <- Er.
    apply aliasExtensions_ios; [apply Hq | exact Ei].
Qed.

Lemma extensions_always_present_witness :
  In (qualified "android" "scss") (resolveExtensions "android" [".vue"; ".scss"])
  /\ In (generic "scss") (resolveExtensions "android" [".vue"; ".scss"])
  /\ In (qualified "ios" "scss") (resolveExtensions "visionos" [".vue"; ".scss"]).
Proof.
  apply (extensions_always_present "android" "scss" [".vue"; ".scss"]).
  simpl. tauto.
Defined.

(** X2: lines 195-221 never drop an extension that the configuration
    already had and never produce a duplicate; on a platform other than
    visionos the earlier extensions stay in front, in their order, and
    the new ones follow. *)
Theorem earlier_extensions_kept (p : string) (store : t) :
  NoDup store ->
  NoDup (resolveExtensions p store)
  /\ (forall x, In x store -> In x (resolveExtensions p store))
  /\ (p <> "visionos" -> exists tail, resolveExtensions p store = store ++ tail).
Proof.
  intros Hnd. unfold resolveExtensions. repeat split.
  - unfold aliasExtensions. destruct (String.eqb p "visionos").
    + apply ofArray_NoDup.
    + rewrite addExtensions_generic. now apply addExtensionsOf_NoDup.
  - intros x Hx. apply aliasExtensions_In.
    rewrite addExtensions_generic. apply addExtensionsOf_In. now right.
  - intros Hp. unfold aliasExtensions. apply String.eqb_neq in Hp. rewrite Hp.
    rewrite addExtensions_generic. apply addExtensionsOf_extends.
Qed.

Lemma earlier_extensions_kept_witness :
  NoDup (resolveExtensions "ios" [".vue"; ".ts"])
  /\ (forall x, In x [".vue"; ".ts"] -> In x (resolveExtensions "ios" [".vue"; ".ts"]))
  /\ ("ios" <> "visionos" ->
      exists tail, resolveExtensions "ios" [".vue"; ".ts"] = [".vue"; ".ts"] ++ tail).
Proof.
  apply (earlier_extensions_kept "ios" [".vue"; ".ts"]).
  repeat constructor; simpl; intuition discriminate.
Defined.

(** X3: running lines 195-221 a second time on the same extension set
    changes nothing, on any set for a platform other than visionos and on
    the set of a fresh configuration for visionos. *)
Theorem resolveExtensions_twice (p : string) (store : t) :
  p <> "visionos" \/ store = empty ->
  resolveExtensions p (resolveExtensions p store) = resolveExtensions p store.
Proof.
  intros H.
  destruct (String.eqb_spec p "visionos") as [->|Hp].
  - destruct H as [H | ->]; [congruence|]. vm_compute. reflexivity.
  - unfold resolveExtensions, aliasExtensions.
    apply String.eqb_neq in Hp. rewrite Hp.
    rewrite !addExtensions_generic.
    apply addExtensionsOf_present.
    intros x Hx. apply addExtensionsOf_In. now left.
Qed.

Lemma resolveExtensions_twice_witness :
  resolveExtensions "android" (resolveExtensions "android" [".vue"; ".ts"])
  = resolveExtensions "android" [".vue"; ".ts"].
Proof.
  apply (resolveExtensions_twice "android" [".vue"; ".ts"]).
  left. discriminate.
Defined.

Lemma prepend_head (v : string) (store : t) :
  exists tail, prepend v store = v :: tail.
Proof.
  unfold prepend, values, ofArray. simpl fold_left.
  destruct (addAll_extends store (add v empty)) as [tail E].
  exists tail. rewrite E. reflexivity.
Qed.

(** X4: whatever the extension set holds when the React configuration
    reaches line 15, the set starts with [.p.tsx] and [.tsx] afterwards,
    has no duplicate and has kept every earlier extension. *)
Theorem tsx_first_on_any_store (p : string) (store : t) :
  exists rest,
    reactExtensions p store = qualified p "tsx" :: generic "tsx" :: rest
    /\ NoDup (reactExtensions p store)
    /\ forall x, In x store -> In x (reactExtensions p store).
Proof.
  unfold reactExtensions.
  destruct (prepend_head ".tsx" store) as [t1 E1].
  assert (E2 : exists rest,
             prepend ("." ++ p ++ ".tsx") (".tsx" :: t1)
             = qualified p "tsx" :: generic "tsx" :: rest).
  { unfold prepend, values, ofArray. simpl fold_left.
    rewrite (add_fresh ".tsx").
    - destruct (addAll_extends t1 ([qualified p "tsx"] ++ [".tsx"])) as [tail E].
      exists tail. exact E.
    - intros H. apply In_add_inv in H as [H|[]]. symmetry in H.
      now apply (qualified_not_generic p "tsx" "tsx") in H. }
  destruct E2 as [rest E2]. exists rest. rewrite E1. split; [exact E2|]. split.
  - unfold prepend at 1. apply ofArray_NoDup.
  - intros x Hx. unfold prepend at 1. apply ofArray_In. right.
    unfold values. rewrite <- E1. unfold prepend. apply ofArray_In. now right.
Qed.

End ExtensionSetProperties.

(** ** What the two exclusion patterns match *)

Section ExclusionProperties.

Import RegExp Spec Exclusion.

Lemma otherPlatforms_In (available : list string) (active n : string) :
  In n (otherPlatforms available active) <-> In n available /\ n <> active.
Proof.
  unfold otherPlatforms, JS.strictNe. rewrite filter_In.
  rewrite negb_true_iff, String.eqb_neq. tauto.
Qed.

Lemma test_otherPlatformsTree (names : list string) (path : string) :
  test (otherPlatformsTree names) path = true
  <-> exists pre n w,
        In n (alternatives names) /\ isWord w = true /\ w <> EmptyString
        /\ path = (pre ++ "." ++ n ++ "." ++ w)%string.
Proof.
  split.
  - intros H. apply test_inv in H as (pre & t & -> & H).
    apply run_otherPlatformsTree_inv in H as (n & w & Hn & Hw & Hne & ->).
    now exists pre, n, w.
  - intros (pre & n & w & Hn & Hw & Hne & ->).
    now apply test_intro, run_otherPlatformsTree_intro.
Qed.

(** X5: with platform names that are words and at least one platform
    besides the active one, the Other_Platforms pattern is a pattern and
    matches exactly the paths that end in a dot, the name of a known
    platform other than the active one, a dot and a non-empty word. *)
Theorem other_platforms_exactly (available : list string) (p : string) :
  Forall (fun n => isPlatformName n = true) available ->
  otherPlatforms available p <> [] ->
  exists re,
    parse (otherPlatformsSource available p) = Some re
    /\ forall path,
         test re path = true
         <-> exists pre n w,
               In n available /\ n <> p /\ isWord w = true /\ w <> EmptyString
               /\ path = (pre ++ "." ++ n ++ "." ++ w)%string.
Proof.
  intros Hav Hothers.
  exists (otherPlatformsTree (otherPlatforms available p)).
  split; [now apply parse_otherPlatformsSource|].
  intros path. rewrite test_otherPlatformsTree.
  assert (E : alternatives (otherPlatforms available p) = otherPlatforms available p).
  { destruct (otherPlatforms available p); [congruence | reflexivity]. }
  rewrite E. split.
  - intros (pre & n & w & Hn & H). apply otherPlatforms_In in Hn as [Hn Hne].
    exists pre, n, w. tauto.
  - intros (pre & n & w & Hn & Hne & H).
    exists pre, n, w. split; [now apply otherPlatforms_In | exact H].
Qed.

Lemma other_platforms_exactly_witness :
  exists re,
    parse (otherPlatformsSource ["android"; "ios"; "visionos"] "android") = Some re
    /\ forall path,
         test re path = true
         <-> exists pre n w,
               In n ["android"; "ios"; "visionos"] /\ n <> "android"
               /\ isWord w = true /\ w <> EmptyString
               /\ path = (pre ++ "." ++ n ++ "." ++ w)%string.
Proof.
  apply (other_platforms_exactly ["android"; "ios"; "visionos"] "android").
  - repeat constructor.
  - vm_compute. discriminate.
Defined.

(** X6: when the active platform is the only known one, the list of
    line 433 is empty, the text of line 438 is still a pattern, and it
    matches exactly the paths that end in two dots and a non-empty
    word. *)
Theorem other_platforms_none (available : list string) (p : string) :
  otherPlatforms available p = [] ->
  exists re,
    parse (otherPlatformsSource available p) = Some re
    /\ forall path,
         test re path = true
         <-> exists pre w,
               isWord w = true /\ w <> EmptyString
               /\ path = (pre ++ ".." ++ w)%string.
Proof.
  intros Hnone. exists (otherPlatformsTree []). split.
  - unfold otherPlatformsSource, otherPlatformsRE. rewrite Hnone.
    apply parse_otherPlatforms. constructor.
  - intros path. rewrite test_otherPlatformsTree. split.
    + intros (pre & n & w & [<-|[]] & Hw & Hne & ->). now exists pre, w.
    + intros (pre & w & Hw & Hne & ->). exists pre, EmptyString, w.
      repeat split; auto. now left.
Qed.

Lemma other_platforms_none_witness :
  exists re,
    parse (otherPlatformsSource ["ios"] "ios") = Some re
    /\ forall path,
         test re path = true
         <-> exists pre w,
               isWord w = true /\ w <> EmptyString
               /\ path = (pre ++ ".." ++ w)%string.
Proof.
  apply (other_platforms_none ["ios"] "ios"). reflexivity.
Defined.

(** X7: the App_Resources pattern of line 427 matches exactly the paths
    in which the text App_Resources occurs, at any depth and with
    anything around it. *)
Theorem app_resources_exactly :
  exists re,
    parse appResourcesSource = Some re
    /\ forall path, test re path = JS.includes path "App_Resources".
Proof.
  exists appResourcesTree. split; [apply parse_appResources|].
  apply test_appResources.
Qed.

(** X8: the Other_Platforms pattern reads the last two components only:
    a path whose component before the final one is a non-empty word that
    is not another known platform is not matched, whatever comes before
    it, the name of another platform included. *)
Theorem other_platforms_last_suffix (available : list string) (p pre n w : string) :
  Forall (fun m => isPlatformName m = true) available ->
  isPlatformName n = true -> hasDot w = false ->
  ~ In n available \/ n = p ->
  exists re,
    parse (otherPlatformsSource available p) = Some re
    /\ test re (pre ++ "." ++ n ++ "." ++ w) = false.
Proof.
  intros Hav Hn Hw Hout.
  exists (otherPlatformsTree (otherPlatforms available p)).
  split; [now apply parse_otherPlatformsSource|].
  apply not_true_is_false. intros H.
  apply test_otherPlatformsTree in H as (pre0 & m & w0 & Hm & Hw0 & _ & E).
  assert (Hm' : isWord m = true /\ m <> n).
  { unfold alternatives in Hm.
    destruct (otherPlatforms available p) as [|m0 rest] eqn:Eo.
    - destruct Hm as [<-|[]]. split; [reflexivity|].
      intros <-. discriminate Hn.
    - rewrite <- Eo in Hm. apply otherPlatforms_In in Hm as [Hm Hne]. split.
      + rewrite Forall_forall in Hav. now apply isPlatformName_word, Hav.
      + intros ->. tauto. }
  destruct Hm' as [Hmw Hne].
  change (pre ++ "." ++ n ++ "." ++ w)%string
    with (pre ++ String "." (n ++ String "." w))%string in E.
  change (pre0 ++ "." ++ m ++ "." ++ w0)%string
    with (pre0 ++ String "." (m ++ String "." w0))%string in E.
  change (String "." (n ++ String "." w))
    with (String "." n ++ String "." w)%string in E.
  change (String "." (m ++ String "." w0))
    with (String "." m ++ String "." w0)%string in E.
  rewrite <- !append_assoc in E.
  apply last_dot_unique in E as [E _]; [|assumption|now apply isWord_no_dot].
  apply last_dot_unique in E as [_ E];
    [|now apply isWord_no_dot, isPlatformName_word|now apply isWord_no_dot].
  now subst.
Qed.

(** On android a declaration file of the ios variant is not matched. *)
Lemma other_platforms_last_suffix_witness :
  exists re,
    parse (otherPlatformsSource ["android"; "ios"; "visionos"] "android") = Some re
    /\ test re ("views/home.ios" ++ "." ++ "d" ++ "." ++ "ts") = false.
Proof.
  apply (other_platforms_last_suffix ["android"; "ios"; "visionos"] "android"
           "views/home.ios" "d" "ts").
  - repeat constructor.
  - reflexivity.
  - reflexivity.
  - left. simpl. intuition discriminate.
Defined.

End ExclusionProperties.

(** ** Constants and source maps *)

Section ConstantProperties.

Import Settled.


(** X10: the devtool is never [true] and never absent.  It is [false]
    exactly when the flag is absent on a production build or is [false]
    itself; [--env.sourceMap=true] gives the inline source map on a
    production build too, and a named devtool is passed through. *)
Theorem devtool_values (production : bool) (map : SourceMap.value) :
  SourceMap.devtool production map <> SourceMap.Boolean true
  /\ SourceMap.devtool production map <> SourceMap.Undefined
  /\ (SourceMap.devtool production map = SourceMap.Boolean false
      <-> (map = SourceMap.Undefined /\ production = true)
          \/ map = SourceMap.Boolean false)
  /\ SourceMap.devtool production (SourceMap.Boolean true)
     = SourceMap.Text SourceMap.defaultSourceMap
  /\ forall name, SourceMap.devtool production (SourceMap.Text name)
                  = SourceMap.Text name.
Proof.
  unfold SourceMap.devtool, SourceMap.getSourceMapType.
  destruct production, map as [|[]|name]; simpl;
    repeat split; try discriminate; try reflexivity;
    try (intros [[? ?]|?]; discriminate); try (intros; auto; fail);
    try (intros; right; reflexivity); try (intros; left; split; reflexivity).
Qed.

Lemma define_get_set_same (key : string) (v : Define.value) (defs : Define.t) :
  Define.get key (Define.set key v defs) = Some v.
Proof.
  induction defs as [|[k old] rest IH]; simpl.
  - now rewrite String.eqb_refl.
  - destruct (String.eqb k key) eqn:E; simpl; now rewrite E.
Qed.

Lemma define_get_set_other (key other : string) (v : Define.value) (defs : Define.t) :
  other <> key -> Define.get key (Define.set other v defs) = Define.get key defs.
Proof.
  intros Hne. induction defs as [|[k old] rest IH]; simpl.
  - apply String.eqb_neq in Hne. now rewrite Hne.
  - destruct (String.eqb k other) eqn:E; simpl.
    + apply String.eqb_eq in E; subst k.
      apply String.eqb_neq in Hne. now rewrite Hne.
    + now rewrite IH.
Qed.

(** X11: the React configuration replaces the boolean [__DEV__] of base
    by the code text [true] and sets [process.env.NODE_ENV] to
    development whatever the mode of the build is, production included,
    adds [__TEST__], and leaves every other definition of base as it
    was. *)
Theorem react_definitions_ignore_mode (mode platform : string) (verbose : bool)
    (hostIPs cssParser : string) :
  let base := Define.baseDefinitions mode platform verbose hostIPs cssParser in
  let react := Define.reactDefinitions base in
  Define.get "__DEV__" base = Some (Define.Flag (String.eqb mode "development"))
  /\ Define.get "__DEV__" react = Some (Define.Code "true")
  /\ Define.get "process.env.NODE_ENV" react
     = Some (Define.Code (Define.stringify "development"))
  /\ Define.get "__TEST__" react = Some (Define.Code "false")
  /\ forall key,
       ~ In key ["__DEV__"; "__TEST__"; "process.env.NODE_ENV"] ->
       Define.get key react = Define.get key base.
Proof.
  intros base react. subst react. unfold Define.reactDefinitions, Define.merge.
  cbn [fold_left fst snd].
  split; [reflexivity|].
  split.
  { rewrite !define_get_set_other by discriminate. apply define_get_set_same. }
  split; [apply define_get_set_same|].
  split.
  { rewrite define_get_set_other by discriminate. apply define_get_set_same. }
  intros key Hkey.
  rewrite !define_get_set_other; [reflexivity| | |];
    intros <-; apply Hkey; simpl; tauto.
Qed.

End ConstantProperties.

(** ** More on the stylesheet import resolver *)

Section StylesheetProperties.

Import Exec Stylesheet Spec Settled.

Lemma hasDollar_append (a b : string) :
  hasDollar (a ++ b) = hasDollar a || hasDollar b.
Proof.
  induction a as [|c a IH]; simpl; [reflexivity|].
  now rewrite IH, orb_assoc.
Qed.

(** A replacement text without a dollar sign is inserted as it is. *)
Lemma getSubstitution_plain (matched before after template : string) :
  hasDollar template = false ->
  JS.getSubstitution matched before after template = template.
Proof.
  induction template as [|c rest IH]; [reflexivity|].
  simpl. intros H. apply orb_false_iff in H as [Hc Hrest].
  rewrite Hc. now rewrite IH.
Qed.

Lemma length_append (a b : string) :
  String.length (a ++ b) = String.length a + String.length b.
Proof. induction a as [|c a IH]; simpl; [reflexivity | now rewrite IH]. Qed.

Lemma substring_prefix (a b : string) :
  substring 0 (String.length a) (a ++ b) = a.
Proof.
  induction a as [|c a IH]; simpl.
  - destruct b; reflexivity.
  - now rewrite IH.
Qed.

Lemma substring_none (n : nat) (s : string) : substring n 0 s = EmptyString.
Proof.
  revert n; induction s as [|c s IH]; intros [|n]; simpl; auto.
Qed.

(** [replace] on a text whose pattern first occurs at its very end. *)
Lemma replace_at_end (stem pat rep : string) :
  JS.indexOf (stem ++ pat) pat = Some (String.length stem) ->
  hasDollar rep = false ->
  JS.replace (stem ++ pat) pat rep = (stem ++ rep)%string.
Proof.
  intros Hi Hrep. unfold JS.replace. rewrite Hi.
  rewrite getSubstitution_plain by assumption.
  rewrite substring_prefix, length_append.
  rewrite Nat.sub_diag, substring_none. now rewrite append_nil_r.
Qed.

Variable h : Host.
Variables baseDir : string.

(** X12: for a specifier [stem ++ ext] whose extension [ext] occurs
    nowhere before its end, and with no dollar sign in the platform or
    the extension, the request of a platform target is
    [stem.target ++ ext], as in foo.css to foo.ios.css, and the path
    probed on disk is that request resolved against the base
    directory. *)
Theorem candidate_of_plain_specifier (stem ext target : string) :
  extname h (stem ++ ext) = ext ->
  ext <> EmptyString ->
  JS.indexOf (stem ++ ext) ext = Some (String.length stem) ->
  hasDollar target = false ->
  hasDollar ext = false ->
  candidate h (stem ++ ext) baseDir target
  = ((stem ++ "." ++ target ++ ext)%string,
     pathResolve h baseDir (stem ++ "." ++ target ++ ext)).
Proof.
  intros Hext Hne Hi Ht He.
  unfold candidate, platformRequestOf, platformExtOf. rewrite Hext.
  apply String.eqb_neq in Hne. rewrite Hne.
  rewrite replace_at_end; [reflexivity | assumption |].
  change ("." ++ target ++ ext)%string with (String "." (target ++ ext)).
  simpl. now rewrite hasDollar_append, Ht, He.
Qed.

(** X13: a specifier that already carries the extension of every
    platform target, as theme.ios.css does on an ios build, comes back
    unchanged and no lookup is made for it. *)
Theorem resolve_qualified_specifier (platform id : string) (log : list event) :
  extname h id <> EmptyString ->
  Forall (fun target => JS.includes id ("." ++ target ++ extname h id) = true)
    (platformTargets platform) ->
  resolve platform h id baseDir log = (Returned id, log).
Proof.
  intros Hne Hall. unfold resolve.
  induction (platformTargets platform) as [|t later IH]; [reflexivity|].
  inversion Hall as [|? ? Ht Hlater]; subst.
  rewrite tryTargets_skip; [now apply IH|].
  unfold eligible, platformExtOf. apply String.eqb_neq in Hne. rewrite Hne.
  now rewrite Ht.
Qed.

Lemma tryTargets_bound (id : string) (targets : list string) (log : list event) :
  exists path added,
    tryTargets h id baseDir targets log = (Returned path, log ++ added)
    /\ List.length added <= 2 * List.length targets + 1
    /\ List.length (filter isRequireResolve added) <= List.length targets
    /\ (path = id
        \/ exists t, In t targets
             /\ (requireResolve h (fst (candidate h id baseDir t)) baseDir = Some path
                 \/ path = snd (candidate h id baseDir t))).
Proof.
  revert log; induction targets as [|t later IH]; intros log.
  - exists id, []. simpl. rewrite app_nil_r. repeat split; auto.
  - destruct (eligible h id t) eqn:He.
    + destruct (requireResolve h (fst (candidate h id baseDir t)) baseDir) as [found|] eqn:Hr.
      * exists found, [RequireResolve (fst (candidate h id baseDir t)) baseDir].
        rewrite (tryTargets_required h id baseDir t later log found) by assumption.
        simpl. repeat split; try lia.
        right. exists t. split; [now left | now left].
      * destruct (existsSync h (snd (candidate h id baseDir t))) eqn:Hx.
        -- eexists _, _.
           rewrite (tryTargets_exists h id baseDir t later log) by assumption.
           split; [reflexivity|]. simpl. repeat split; try lia.
           right. exists t. split; [now left | now right].
        -- rewrite (tryTargets_miss h id baseDir t later log) by (auto; now split).
           destruct (IH (log ++ probesOf h id baseDir t))
             as (path & added & E & Hlen & Hrr & Hpath).
           exists path, (probesOf h id baseDir t ++ added).
           rewrite E, <- app_assoc. split; [reflexivity|].
           rewrite filter_app, !length_app. simpl. repeat split; try lia.
           destruct Hpath as [->|(u & Hu & H)]; [now left|].
           right. exists u. split; [now right | exact H].
    + rewrite tryTargets_skip by assumption.
      destruct (IH log) as (path & added & E & Hlen & Hrr & Hpath).
      exists path, added. rewrite E. simpl. repeat split; try lia.
      destruct Hpath as [->|(u & Hu & H)]; [now left|].
      right. exists u. split; [now right | exact H].
Qed.

(** X14: one call of the resolver only appends to the log, at most five
    events of which at most two are [require.resolve] lookups; its answer
    is the specifier itself, or what [require.resolve] found for the
    request of a platform target, or the path of such a request on
    disk. *)
Theorem resolve_is_bounded (platform id : string) (log : list event) :
  exists path added,
    resolve platform h id baseDir log = (Returned path, log ++ added)
    /\ List.length added <= 5
    /\ List.length (filter isRequireResolve added) <= 2
    /\ (path = id
        \/ exists t, In t (platformTargets platform)
             /\ (requireResolve h (fst (candidate h id baseDir t)) baseDir = Some path
                 \/ path = snd (candidate h id baseDir t))).
Proof.
  unfold resolve.
  destruct (tryTargets_bound id (platformTargets platform) log)
    as (path & added & E & Hlen & Hrr & Hpath).
  assert (Hn : List.length (platformTargets platform) <= 2).
  { unfold platformTargets. destruct (String.eqb platform "visionos"); simpl; lia. }
  exists path, added. repeat split; auto; lia.
Qed.

End StylesheetProperties.

Lemma candidate_of_plain_specifier_witness :
  Stylesheet.candidate Sample.host ("theme" ++ ".css") "/app/src" "ios"
  = (("theme" ++ "." ++ "ios" ++ ".css")%string,
     Stylesheet.pathResolve Sample.host "/app/src" ("theme" ++ "." ++ "ios" ++ ".css")).
Proof.
  apply (candidate_of_plain_specifier Sample.host "/app/src" "theme" ".css" "ios").
  - reflexivity.
  - discriminate.
  - reflexivity.
  - reflexivity.
  - reflexivity.
Defined.

Lemma resolve_qualified_specifier_witness :
  Stylesheet.resolve "ios" Sample.host "theme.ios.css" "/app/src" []
  = (Exec.Returned "theme.ios.css", []).
Proof.
  apply (resolve_qualified_specifier Sample.host "/app/src" "ios" "theme.ios.css" []).
  - vm_compute. discriminate.
  - repeat constructor.
Defined.

(** ** A whole run of base and of the React configuration *)

Section RunFacts.

Import Exec ChainedSet Config Platform Base Spec Settled.

Context {CopyRules : Type} (helpers : Helpers CopyRules).

Lemma when_addAppComponents (c : bool) (b : Build CopyRules) :
  when c addAppComponents b
  = (Returned tt,
     {| config := applyIf c
                    (onBundle (fun entry =>
                       fold_left (fun entry component => add component entry)
                         (pushed (env b)) entry)) (config b);
        env := if c then afterPush (env b) else env b;
        copyRules := copyRules b |}).
Proof. destruct c, b; reflexivity. Qed.

Lemma afterPush_flags (e : IWebpackEnv) :
  production (afterPush e) = production e
  /\ hmr (afterPush e) = hmr e
  /\ report (afterPush e) = report e.
Proof. unfold afterPush. destruct (appComponents e); repeat split. Qed.

Lemma applyIf_same {A : Type} (g : Config.t -> A) (c : bool)
    (f : Config.t -> Config.t) (x : Config.t) :
  g (f x) = g x -> g (applyIf c f x) = g x.
Proof. intros H. unfold applyIf. now destruct c. Qed.

Lemma applyIf_plugin_other (name other : string) (a : pluginArgs) (c : bool)
    (x : Config.t) :
  other <> name ->
  plugin name (plugins (applyIf c (usePlugin other a) x)) = plugin name (plugins x).
Proof.
  intros H. unfold applyIf. destruct c; [|reflexivity].
  now apply plugin_usePlugin_other.
Qed.

(** What a run that returns leaves behind, field by field. *)
Lemma base_outcome (amb : Ambient) (b : Build CopyRules) :
  helpersKeepSettings helpers ->
  isKnown amb (requested amb) = true ->
  Forall (fun n => isPlatformName n = true) (getAvailablePlatforms amb) ->
  let p := requested amb in
  let r := base helpers amb b in
  let c := config (snd r) in
  let entries :=
    bundle (config b)
    |> add "@nativescript/core/globals/index"
    |> add "@nativescript/core/bundle-entry-points"
    |> add (entryPath amb) in
  fst r = Returned tt
  /\ mode c = (if production (env b) then "production" else "development")
  /\ bundle c
     = (if String.eqb p "android"
        then fold_left (fun entry component => add component entry)
               (pushed (env b)) entries
        else entries)
  /\ inspectorModules c
     = (if String.eqb p "ios" || String.eqb p "android"
        then add "@nativescript/core/inspector_modules" (inspectorModules (config b))
        else inspectorModules (config b))
  /\ importPlatform c = Some p
  /\ plugin "PlatformSuffixPlugin" (plugins c)
     = Some (PlatformSuffix (if String.eqb p "visionos" then [p; "ios"] else [p]))
  /\ plugin "DefinePlugin" (plugins c) = Some (Define (platformFlags p))
  /\ plugin "WatchStatePlugin" (plugins c) = Some NoArgs
  /\ (hmr (env b) = true ->
      plugin "HotModuleReplacementPlugin" (plugins c) = Some NoArgs)
  /\ (report (env b) = true ->
      plugin "BundleAnalyzerPlugin" (plugins c) = Some NoArgs)
  /\ env (snd r) = (if String.eqb p "android" then afterPush (env b) else env b)
  /\ copyRules (snd r)
     = addCopyRule helpers "**/*.+(jpg|png)"
         (addCopyRule helpers "fonts/**"
            (addCopyRule helpers "assets/**" (copyRules b))).
Proof.
  intros (Hdot & Hrep & Hcopy) Hknown Hnames p r c entries.
  assert (Er : r = base helpers amb b) by reflexivity. clearbody r.
  unfold base, shouldIncludeInspectorModules, newRegExp in Er.
  rewrite parse_appResources in Er.
  repeat (rewrite bind_run in Er;
          try rewrite getPlatformName_known in Er by assumption;
          try rewrite filterM_others in Er by assumption;
          try rewrite when_onConfig in Er;
          try rewrite when_addAppComponents in Er;
          cbn [onConfig onCopyRules envFlag modify ret throw config env copyRules] in Er).
  change ("\.(" ++ JS.join "|"
            (Exclusion.otherPlatforms (getAvailablePlatforms amb) (requested amb))
            ++ ")\.(\w+)$")%string
    with (Exclusion.otherPlatformsSource (getAvailablePlatforms amb) (requested amb)) in Er.
  rewrite parse_otherPlatformsSource in Er by assumption.
  cbn [onConfig onCopyRules envFlag modify ret throw config env copyRules] in Er.
  repeat (rewrite bind_run in Er;
          try rewrite when_onConfig in Er;
          cbn [onConfig onCopyRules envFlag modify ret throw config env copyRules] in Er).
  try rewrite when_onConfig in Er.
  cbn [onConfig onCopyRules envFlag modify ret throw config env copyRules] in Er.
  subst c r entries p. cbn [fst snd config env copyRules onConfig modify].
  assert (Hh : hmr (if String.eqb (requested amb) "android"
                    then afterPush (env b) else env b) = hmr (env b)).
  { destruct (String.eqb (requested amb) "android"); [apply afterPush_flags | reflexivity]. }
  assert (Hr : report (if String.eqb (requested amb) "android"
                       then afterPush (env b) else env b) = report (env b)).
  { destruct (String.eqb (requested amb) "android"); [apply afterPush_flags | reflexivity]. }
  rewrite Hh, Hr.
  assert (K : forall f g x, keepsSettings f -> keepsSettings g ->
                forall rules,
                  let y := applyCopyRules helpers rules (g (f x)) in
                  mode y = mode x /\ bundle y = bundle x
                  /\ inspectorModules y = inspectorModules x
                  /\ importPlatform y = importPlatform x
                  /\ forall name, In name basePlugins ->
                       plugin name (plugins y) = plugin name (plugins x)).
  { intros f g x Hf Hg rules y. subst y.
    destruct (Hcopy rules (g (f x))) as (M1 & B1 & I1 & _ & P1 & L1).
    destruct (Hg (f x)) as (M2 & B2 & I2 & _ & P2 & L2).
    destruct (Hf x) as (M3 & B3 & I3 & _ & P3 & L3).
    repeat split; try congruence.
    intros name Hn. rewrite L1, L2, L3 by assumption. reflexivity. }
  match goal with
  | |- context [applyCopyRules helpers ?rules (applyFileReplacements helpers
                  (applyDotEnvPlugin helpers ?x))] =>
      destruct (K (applyDotEnvPlugin helpers) (applyFileReplacements helpers) x
                  Hdot Hrep rules) as (KM & KB & KI & KP & KL)
  end.
  clear K.
  split; [reflexivity|].
  split.
  { repeat first [ rewrite (applyIf_same mode) by reflexivity
                 | rewrite KM
                 | progress cbn [mode usePlugin setMode onBundle onInspectorModules
                                 onExtensions setImportPlatform] ].
    reflexivity. }
  split.
  { repeat first [ rewrite (applyIf_same bundle) by reflexivity
                 | rewrite KB
                 | progress cbn [bundle usePlugin setMode onBundle onInspectorModules
                                 onExtensions setImportPlatform] ].
    unfold applyIf. destruct (String.eqb (requested amb) "android"); reflexivity. }
  split.
  { repeat first [ rewrite (applyIf_same inspectorModules) by reflexivity
                 | rewrite KI
                 | progress cbn [inspectorModules usePlugin setMode onBundle
                                 onInspectorModules onExtensions setImportPlatform] ].
    unfold applyIf at 1.
    destruct (String.eqb (requested amb) "ios" || String.eqb (requested amb) "android");
      cbn [inspectorModules onInspectorModules];
      now rewrite (applyIf_same inspectorModules) by reflexivity. }
  split.
  { repeat first [ rewrite (applyIf_same importPlatform) by reflexivity
                 | rewrite KP
                 | progress cbn [importPlatform usePlugin setMode onBundle
                                 onInspectorModules onExtensions setImportPlatform] ].
    reflexivity. }
  split.
  { rewrite !applyIf_plugin_other by discriminate.
    rewrite plugin_usePlugin_other by discriminate.
    rewrite KL by (simpl; tauto).
    rewrite !plugin_usePlugin_other by discriminate.
    apply plugin_usePlugin_same. }
  split.
  { rewrite !applyIf_plugin_other by discriminate.
    rewrite plugin_usePlugin_other by discriminate.
    rewrite KL by (simpl; tauto).
    apply plugin_usePlugin_same. }
  split.
  { rewrite !applyIf_plugin_other by discriminate.
    apply plugin_usePlugin_same. }
  split.
  { intros ->. rewrite applyIf_plugin_other by discriminate.
    cbn [applyIf]. apply plugin_usePlugin_same. }
  split.
  { intros ->. cbn [applyIf]. apply plugin_usePlugin_same. }
  split; reflexivity.
Qed.

End RunFacts.

Section RunProperties.

Import Exec ChainedSet Config Platform Base Spec Settled.

Context {CopyRules : Type} (helpers : Helpers CopyRules).

(** X15: whatever extension set the configuration holds, a run of base
    on a known platform, with platform names that are words, returns
    and leaves the extension set of lines 195-221 built on top of it;
    the plugins and helper calls that follow do not touch it. *)
Theorem base_sets_extension_list (amb : Ambient) (b : Build CopyRules) :
  helpersKeepResolution helpers ->
  isKnown amb (requested amb) = true ->
  Forall (fun n => isPlatformName n = true) (getAvailablePlatforms amb) ->
  fst (base helpers amb b) = Returned tt
  /\ extensionList (snd (base helpers amb b))
     = ChainedSet.values (resolveExtensions (requested amb) (extensions (config b))).
Proof.
  intros Hk Hknown Hnames.
  destruct (base_resolution helpers amb b Hk Hknown) as [Hext H].
  rewrite parse_otherPlatformsSource in H by assumption.
  split; [apply H | exact Hext].
Qed.

(** X16: on a configuration without bundle entries, the bundle entry of
    a run starts with the globals module and the bundle entry points, in
    that order, before the entry path and any app component. *)
Theorem globals_load_first (amb : Ambient) (b : Build CopyRules) :
  helpersKeepSettings helpers ->
  isKnown amb (requested amb) = true ->
  Forall (fun n => isPlatformName n = true) (getAvailablePlatforms amb) ->
  bundle (config b) = ChainedSet.empty ->
  exists rest,
    bundle (config (snd (base helpers amb b)))
    = "@nativescript/core/globals/index"
      :: "@nativescript/core/bundle-entry-points" :: rest.
Proof.
  intros Hk Hknown Hnames Hfresh.
  destruct (base_outcome helpers amb b Hk Hknown Hnames) as (_ & _ & Hb & _).
  rewrite Hb, Hfresh. clear Hb.
  change (add "@nativescript/core/bundle-entry-points"
            (add "@nativescript/core/globals/index" empty))
    with ["@nativescript/core/globals/index"; "@nativescript/core/bundle-entry-points"].
  destruct (add_extends (entryPath amb)
              ["@nativescript/core/globals/index"; "@nativescript/core/bundle-entry-points"])
    as [t1 E1].
  rewrite E1.
  destruct (String.eqb (requested amb) "android").
  - destruct (addAll_extends (pushed (env b))
                (["@nativescript/core/globals/index";
                  "@nativescript/core/bundle-entry-points"] ++ t1)) as [t2 E2].
    rewrite E2. now exists (t1 ++ t2).
  - now exists t1.
Qed.

(** X17: on a platform other than android a run leaves [env] as it was
    and bundles nothing but the globals, the bundle entry points and the
    entry path: the modules of [env.appComponents] are not bundled. *)
Theorem app_components_ignored_off_android (amb : Ambient) (b : Build CopyRules) :
  helpersKeepSettings helpers ->
  isKnown amb (requested amb) = true ->
  Forall (fun n => isPlatformName n = true) (getAvailablePlatforms amb) ->
  requested amb <> "android" ->
  env (snd (base helpers amb b)) = env b
  /\ bundle (config (snd (base helpers amb b)))
     = (bundle (config b)
        |> add "@nativescript/core/globals/index"
        |> add "@nativescript/core/bundle-entry-points"
        |> add (entryPath amb)).
Proof.
  intros Hk Hknown Hnames Hp.
  destruct (base_outcome helpers amb b Hk Hknown Hnames)
    as (_ & _ & Hb & _ & _ & _ & _ & _ & _ & _ & He & _).
  apply String.eqb_neq in Hp. rewrite Hp in Hb, He. now split.
Qed.

(** X18: on android a run bundles every module of [env.appComponents]
    and the two frame modules, and, when [env.appComponents] is an
    array, leaves that array longer by the two frame modules. *)
Theorem app_components_on_android (amb : Ambient) (b : Build CopyRules) :
  helpersKeepSettings helpers ->
  isKnown amb (requested amb) = true ->
  Forall (fun n => isPlatformName n = true) (getAvailablePlatforms amb) ->
  requested amb = "android" ->
  (forall x,
     In x (componentsOf (appComponents (env b))
           ++ ["@nativescript/core/ui/frame"; "@nativescript/core/ui/frame/activity"]) ->
     In x (bundle (config (snd (base helpers amb b)))))
  /\ env (snd (base helpers amb b)) = afterPush (env b)
  /\ forall arr,
       appComponents (env b) = ComponentArray arr ->
       appComponents (env (snd (base helpers amb b)))
       = ComponentArray
           (arr ++ ["@nativescript/core/ui/frame";
                    "@nativescript/core/ui/frame/activity"]).
Proof.
  intros Hk Hknown Hnames Hp.
  destruct (base_outcome helpers amb b Hk Hknown Hnames)
    as (_ & _ & Hb & _ & _ & _ & _ & _ & _ & _ & He & _).
  rewrite Hp in Hb, He. simpl String.eqb in Hb, He. cbv iota in Hb, He.
  split; [|split; [exact He|]].
  - intros x Hx. rewrite Hb. apply addAll_In. now left.
  - intros arr Harr. rewrite He. unfold afterPush, pushed. rewrite Harr. reflexivity.
Qed.

(** X19: a run adds the inspector modules entry on ios and android and
    on no other platform: on visionos or a custom platform the entry is
    left as it was. *)
Theorem inspector_modules_entry (amb : Ambient) (b : Build CopyRules) :
  helpersKeepSettings helpers ->
  isKnown amb (requested amb) = true ->
  Forall (fun n => isPlatformName n = true) (getAvailablePlatforms amb) ->
  let entry := inspectorModules (config (snd (base helpers amb b))) in
  (In (requested amb) ["ios"; "android"] ->
   In "@nativescript/core/inspector_modules" entry)
  /\ (~ In (requested amb) ["ios"; "android"] ->
      entry = inspectorModules (config b)).
Proof.
  intros Hk Hknown Hnames entry. subst entry.
  destruct (base_outcome helpers amb b Hk Hknown Hnames) as (_ & _ & _ & Hi & _).
  rewrite Hi. clear Hi. split.
  - intros [<-|[<-|[]]]; simpl; apply In_add_self.
  - intros Hout.
    destruct (String.eqb_spec (requested amb) "ios") as [E|_];
      [exfalso; apply Hout; simpl; auto|].
    destruct (String.eqb_spec (requested amb) "android") as [E|_];
      [exfalso; apply Hout; simpl; auto|].
    reflexivity.
Qed.

(** X20: the platform suffix plugin of line 419 is registered with the
    list of targets that the stylesheet resolver of line 345 walks
    through, the platform and on visionos ios after it, and the resolver
    is the one of the platform of the build. *)
Theorem suffix_plugin_matches_resolver (amb : Ambient) (b : Build CopyRules) :
  helpersKeepSettings helpers ->
  isKnown amb (requested amb) = true ->
  Forall (fun n => isPlatformName n = true) (getAvailablePlatforms amb) ->
  let c := config (snd (base helpers amb b)) in
  plugin "PlatformSuffixPlugin" (plugins c)
  = Some (PlatformSuffix (Stylesheet.platformTargets (requested amb)))
  /\ importPlatform c = Some (requested amb).
Proof.
  intros Hk Hknown Hnames c. subst c.
  destruct (base_outcome helpers amb b Hk Hknown Hnames)
    as (_ & _ & _ & _ & Hp & Hs & _).
  split; [exact Hs | exact Hp].
Qed.

(** X21: with [env.hmr] set, the React configuration registers the
    React refresh plugin next to the hot module replacement plugin of
    base, on a production build as on any other: it never reads
    [env.production]. *)
Theorem react_refresh_follows_hmr (amb : Ambient) (b : Build CopyRules) :
  helpersKeepSettings helpers ->
  isKnown amb (requested amb) = true ->
  Forall (fun n => isPlatformName n = true) (getAvailablePlatforms amb) ->
  hmr (env b) = true ->
  let r := react helpers amb b in
  fst r = Returned tt
  /\ plugin "ReactRefreshWebpackPlugin" (plugins (config (snd r))) = Some NoArgs
  /\ plugin "HotModuleReplacementPlugin" (plugins (config (snd r))) = Some NoArgs.
Proof.
  intros Hk Hknown Hnames Hhmr r. subst r.
  destruct (base_outcome helpers amb b Hk Hknown Hnames)
    as (Hret & _ & _ & _ & _ & _ & _ & _ & Hh & _ & He & _).
  specialize (Hh Hhmr).
  unfold react. rewrite bind_run.
  destruct (base helpers amb b) as [o st]. cbn [fst snd] in Hret, Hh, He. subst o.
  assert (Hst : hmr (env st) = true).
  { rewrite He. destruct (String.eqb (requested amb) "android"); [|assumption].
    now rewrite (proj1 (proj2 (afterPush_flags (env b)))). }
  rewrite bind_run, getPlatformName_known by assumption.
  repeat (rewrite bind_run;
          cbn [onConfig envFlag modify config env copyRules]).
  rewrite Hst. cbn [andb negb when onConfig modify fst snd config].
  repeat split.
  - apply plugin_usePlugin_same.
  - rewrite plugin_usePlugin_other by discriminate.
    rewrite plugins_onExtensions. exact Hh.
Qed.

(** X22: each time lines 109-116 run on an [env.appComponents] array,
    the array grows by the two frame modules, duplicates included, while
    the bundle entry, being a set, is the same after the second run as
    after the first. *)
Theorem app_components_accumulate (b : Build CopyRules) (arr : list string) :
  appComponents (env b) = ComponentArray arr ->
  let frames := ["@nativescript/core/ui/frame"; "@nativescript/core/ui/frame/activity"] in
  let once := snd (addAppComponents b) in
  let twice := snd (addAppComponents once) in
  appComponents (env once) = ComponentArray (arr ++ frames)
  /\ appComponents (env twice) = ComponentArray ((arr ++ frames) ++ frames)
  /\ bundle (config twice) = bundle (config once).
Proof.
  intros Harr frames once twice. subst once twice frames.
  unfold addAppComponents, modify. cbn [snd config env copyRules].
  assert (E1 : afterPush (env b)
               = setAppComponents
                   (ComponentArray
                      (arr ++ ["@nativescript/core/ui/frame";
                               "@nativescript/core/ui/frame/activity"])) (env b)).
  { unfold afterPush, pushed. now rewrite Harr. }
  rewrite E1. split; [reflexivity|]. split; [reflexivity|].
  cbn [bundle onBundle]. apply addAll_present.
  intros x Hx. apply addAll_In.
  unfold pushed in *. cbn [appComponents setAppComponents componentsOf] in Hx.
  rewrite Harr. cbn [componentsOf].
  apply in_app_or in Hx as [Hx|Hx]; [now left|].
  left. apply in_or_app. now right.
Qed.

End RunProperties.

(** The sample helpers register plugins under names of their own. *)
Lemma sample_helpers_settle : Settled.helpersKeepSettings Sample.helpers.
Proof.
  assert (G : forall name,
            ~ In name Settled.basePlugins ->
            Settled.keepsSettings (Config.usePlugin name Config.NoArgs)).
  { intros name Hname c. repeat split.
    intros n Hn. apply plugin_usePlugin_other. intros ->. contradiction. }
  split; [|split; [|intros rules]].
  - apply G. simpl. intuition discriminate.
  - intros c. repeat split.
  - apply G. simpl. intuition discriminate.
Defined.

Lemma base_exclusion_patterns_witness :
  exists patterns,
    Exclusion.buildExclusionPatterns "ios" ["android"; "ios"; "visionos"] = Some patterns
    /\ fst (Base.base Sample.helpers (Sample.ambient "ios") Sample.start)
       = Exec.Returned tt
    /\ Base.exclusionSet (snd (Base.base Sample.helpers (Sample.ambient "ios") Sample.start))
       = map (fun re => Some (Config.ContextExclusion re)) patterns.
Proof.
  apply (base_exclusion_patterns Sample.helpers (Sample.ambient "ios") Sample.start).
  - exact sample_helpers_keep.
  - reflexivity.
  - repeat constructor.
Defined.

Lemma react_extension_list_witness :
  fst (Base.react Sample.helpers (Sample.ambient "ios") Sample.start) = Exec.Returned tt
  /\ Base.extensionList (snd (Base.react Sample.helpers (Sample.ambient "ios") Sample.start))
     = qualified "ios" "tsx" :: generic "tsx"
       :: ChainedSet.values (resolveExtensions "ios" ChainedSet.empty).
Proof.
  apply (react_extension_list Sample.helpers (Sample.ambient "ios") Sample.start).
  - exact sample_helpers_keep.
  - reflexivity.
  - repeat constructor.
  - reflexivity.
Defined.

Lemma base_sets_extension_list_witness :
  fst (Base.base Sample.helpers (Sample.ambient "visionos") Sample.start)
  = Exec.Returned tt
  /\ Base.extensionList
       (snd (Base.base Sample.helpers (Sample.ambient "visionos") Sample.start))
     = ChainedSet.values (resolveExtensions "visionos" ChainedSet.empty).
Proof.
  apply (base_sets_extension_list Sample.helpers (Sample.ambient "visionos") Sample.start).
  - exact sample_helpers_keep.
  - reflexivity.
  - repeat constructor.
Defined.

Lemma globals_load_first_witness :
  exists rest,
    Config.bundle
      (Base.config (snd (Base.base Sample.helpers (Sample.ambient "android") Sample.start)))
    = "@nativescript/core/globals/index"
      :: "@nativescript/core/bundle-entry-points" :: rest.
Proof.
  apply (globals_load_first Sample.helpers (Sample.ambient "android") Sample.start).
  - exact sample_helpers_settle.
  - reflexivity.
  - repeat constructor.
  - reflexivity.
Defined.

Lemma app_components_ignored_off_android_witness :
  Base.env (snd (Base.base Sample.helpers (Sample.ambient "ios") Sample.start))
  = Sample.env
  /\ Config.bundle
       (Base.config (snd (Base.base Sample.helpers (Sample.ambient "ios") Sample.start)))
     = [ "@nativescript/core/globals/index"; "@nativescript/core/bundle-entry-points";
         "/app/src/app.ts" ].
Proof.
  apply (app_components_ignored_off_android Sample.helpers (Sample.ambient "ios")
           Sample.start).
  - exact sample_helpers_settle.
  - reflexivity.
  - repeat constructor.
  - discriminate.
Defined.

Lemma app_components_on_android_witness :
  (forall x,
     In x [ "app/services/widget"; "@nativescript/core/ui/frame";
            "@nativescript/core/ui/frame/activity" ] ->
     In x (Config.bundle
             (Base.config
                (snd (Base.base Sample.helpers (Sample.ambient "android") Sample.start)))))
  /\ Base.env (snd (Base.base Sample.helpers (Sample.ambient "android") Sample.start))
     = Base.afterPush Sample.env
  /\ forall arr,
       ComponentArray ["app/services/widget"] = ComponentArray arr ->
       appComponents
         (Base.env (snd (Base.base Sample.helpers (Sample.ambient "android") Sample.start)))
       = ComponentArray
           (arr ++ ["@nativescript/core/ui/frame";
                    "@nativescript/core/ui/frame/activity"]).
Proof.
  apply (app_components_on_android Sample.helpers (Sample.ambient "android") Sample.start).
  - exact sample_helpers_settle.
  - reflexivity.
  - repeat constructor.
  - reflexivity.
Defined.

Lemma inspector_modules_entry_witness :
  (In "visionos" ["ios"; "android"] ->
   In "@nativescript/core/inspector_modules"
     (Config.inspectorModules
        (Base.config (snd (Base.base Sample.helpers (Sample.ambient "visionos") Sample.start)))))
  /\ (~ In "visionos" ["ios"; "android"] ->
      Config.inspectorModules
        (Base.config (snd (Base.base Sample.helpers (Sample.ambient "visionos") Sample.start)))
      = []).
Proof.
  apply (inspector_modules_entry Sample.helpers (Sample.ambient "visionos") Sample.start).
  - exact sample_helpers_settle.
  - reflexivity.
  - repeat constructor.
Defined.

Lemma suffix_plugin_matches_resolver_witness :
  Config.plugin "PlatformSuffixPlugin"
    (Config.plugins
       (Base.config (snd (Base.base Sample.helpers (Sample.ambient "visionos") Sample.start))))
  = Some (Config.PlatformSuffix ["visionos"; "ios"])
  /\ Config.importPlatform
       (Base.config (snd (Base.base Sample.helpers (Sample.ambient "visionos") Sample.start)))
     = Some "visionos".
Proof.
  apply (suffix_plugin_matches_resolver Sample.helpers (Sample.ambient "visionos")
           Sample.start).
  - exact sample_helpers_settle.
  - reflexivity.
  - repeat constructor.
Defined.

(** A production build with hot module replacement. *)
Lemma react_refresh_follows_hmr_witness :
  let start :=
    {| Base.config := Config.fresh;
       Base.env := {| production := true; hmr := true; report := false;
                      verbose := false; appComponents := NoComponents |};
       Base.copyRules := ChainedSet.empty |} in
  let r := Base.react Sample.helpers (Sample.ambient "ios") start in
  fst r = Exec.Returned tt
  /\ Config.plugin "ReactRefreshWebpackPlugin" (Config.plugins (Base.config (snd r)))
     = Some Config.NoArgs
  /\ Config.plugin "HotModuleReplacementPlugin" (Config.plugins (Base.config (snd r)))
     = Some Config.NoArgs.
Proof.
  apply (react_refresh_follows_hmr Sample.helpers (Sample.ambient "ios")
           {| Base.config := Config.fresh;
              Base.env := {| production := true; hmr := true; report := false;
                             verbose := false; appComponents := NoComponents |};
              Base.copyRules := ChainedSet.empty |}).
  - exact sample_helpers_settle.
  - reflexivity.
  - repeat constructor.
  - reflexivity.
Defined.

Lemma app_components_accumulate_witness :
  let frames := ["@nativescript/core/ui/frame"; "@nativescript/core/ui/frame/activity"] in
  let once := snd (Base.addAppComponents Sample.start) in
  let twice := snd (Base.addAppComponents once) in
  appComponents (Base.env once) = ComponentArray (["app/services/widget"] ++ frames)
  /\ appComponents (Base.env twice)
     = ComponentArray ((["app/services/widget"] ++ frames) ++ frames)
  /\ Config.bundle (Base.config twice) = Config.bundle (Base.config once).
Proof.
  apply (app_components_accumulate Sample.start ["app/services/widget"]).
  reflexivity.
Defined.

(** ** Which files the loader rules take *)

Section RuleProperties.

Import RegExp Spec.

Lemma run_lit_then_split (w s : string) (rs : list regex) (k : string -> bool) :
  run (seqOf (lit w ++ rs)) s k = true ->
  exists s', s = (w ++ s')%string /\ run (seqOf rs) s' k = true.
Proof.
  revert s; induction w as [|c w IH]; intros s H.
  - now exists s.
  - destruct s as [|d s]; [discriminate H|]. simpl in H.
    apply andb_true_iff in H as [Hc H]. apply Ascii.eqb_eq in Hc; subst d.
    destruct (IH _ H) as (s' & -> & Hk). now exists s'.
Qed.

(** A literal text followed by [$] matches the paths that end with it. *)
Lemma test_literal_suffix (w path : string) :
  test (seqOf (lit w ++ [EndAnchor])) path = true
  <-> exists pre, path = (pre ++ w)%string.
Proof.
  split.
  - intros H. apply test_inv in H as (pre & t & -> & H).
    apply run_lit_then_split in H as (s' & -> & H).
    destruct s'; [|discriminate H]. exists pre. now rewrite append_nil_r.
  - intros [pre ->]. apply test_intro.
    rewrite <- (append_nil_r w) at 2. now rewrite run_lit_then.
Qed.

(** A literal text alone matches the paths in which it occurs. *)
Lemma test_literal (w path : string) :
  test (seqOf (lit w)) path = JS.includes path w.
Proof.
  apply eq_true_iff_eq. split; intros H.
  - apply test_inv in H as (pre & t & -> & H).
    apply (run_litSeq_inv w) in H as (s' & -> & _). apply includes_intro.
  - apply includes_inv in H as (pre & post & ->).
    apply test_intro. apply (run_litSeq w).
Qed.

(** Two texts of the same length at the end of one string are equal. *)
Lemma same_length_suffix (u v a b : string) :
  String.length a = String.length b ->
  (u ++ a = v ++ b)%string -> a = b.
Proof.
  revert v; induction u as [|c u IH]; intros [|d v] Hlen H; simpl in H.
  - exact H.
  - subst a. simpl in Hlen. rewrite length_append in Hlen. lia.
  - subst b. simpl in Hlen. rewrite length_append in Hlen. lia.
  - injection H as _ H. now apply (IH v).
Qed.

Lemma anyMatch_suffix (w path : string) :
  parse (String "\" (w ++ "$")) = Some (seqOf (lit w ++ [EndAnchor])) ->
  Rules.anyMatch [String "\" (w ++ "$")] path = true
  <-> exists pre, path = (pre ++ w)%string.
Proof.
  intros Hp. unfold Rules.anyMatch. cbn [existsb]. rewrite Hp, orb_false_r.
  apply test_literal_suffix.
Qed.

(** X23: the ts rule of base takes exactly the paths that end in [.ts],
    so no [.tsx] file; with the test that the React configuration adds
    it takes exactly the paths that end in [.ts] or in [.tsx]. *)
Theorem ts_rule_and_tsx (path : string) :
  (Rules.applies Rules.ts path = true <-> exists pre, path = (pre ++ ".ts")%string)
  /\ (forall pre, Rules.applies Rules.ts (pre ++ ".tsx") = false)
  /\ (Rules.applies (Rules.withTsx Rules.ts) path = true
      <-> (exists pre, path = (pre ++ ".ts")%string)
          \/ exists pre, path = (pre ++ ".tsx")%string).
Proof.
  assert (Hts : forall q, Rules.anyMatch ["\.ts$"] q = true
                          <-> exists pre, q = (pre ++ ".ts")%string).
  { intros q. apply (anyMatch_suffix ".ts"). reflexivity. }
  assert (Htsx : forall q, Rules.anyMatch ["\.tsx$"] q = true
                           <-> exists pre, q = (pre ++ ".tsx")%string).
  { intros q. apply (anyMatch_suffix ".tsx"). reflexivity. }
  unfold Rules.applies, Rules.ts, Rules.withTsx. cbn [Rules.test Rules.exclude].
  change (Rules.anyMatch [] path) with false. cbn [negb].
  rewrite andb_true_r. split; [apply Hts|]. split.
  - intros pre. change (Rules.anyMatch [] (pre ++ ".tsx")) with false.
    cbn [negb]. rewrite andb_true_r. apply not_true_is_false. intros H.
    apply Hts in H as [pre' H].
    change (pre ++ ".tsx")%string with (pre ++ ".ts" ++ "x")%string in H.
    change (pre' ++ ".ts")%string with (pre' ++ ".t" ++ "s")%string in H.
    rewrite <- !append_assoc in H.
    apply same_length_suffix in H; [discriminate H | reflexivity].
  - rewrite andb_true_r.
    change (["\.ts$"] ++ ["\.tsx$"]) with ["\.ts$"; "\.tsx$"].
    unfold Rules.anyMatch at 1. cbn [existsb]. rewrite orb_false_r.
    rewrite orb_true_iff.
    pose proof (Hts path) as H1. pose proof (Htsx path) as H2.
    unfold Rules.anyMatch in H1, H2. cbn [existsb] in H1, H2.
    rewrite orb_false_r in H1, H2. now rewrite H1, H2.
Qed.

(** X24: the css rule takes exactly the paths that end in [.css] and the
    scss rule exactly those that end in [.scss], platform-qualified
    names included, and no path is taken by both. *)
Theorem css_and_scss_rules (path : string) :
  (Rules.applies Rules.css path = true <-> exists pre, path = (pre ++ ".css")%string)
  /\ (Rules.applies Rules.scss path = true <-> exists pre, path = (pre ++ ".scss")%string)
  /\ Rules.applies Rules.css path && Rules.applies Rules.scss path = false.
Proof.
  assert (Hcss : Rules.applies Rules.css path = true
                 <-> exists pre, path = (pre ++ ".css")%string).
  { unfold Rules.applies, Rules.css. cbn [Rules.test Rules.exclude].
    change (Rules.anyMatch [] path) with false. cbn [negb]. rewrite andb_true_r.
    apply (anyMatch_suffix ".css"). reflexivity. }
  assert (Hscss : Rules.applies Rules.scss path = true
                  <-> exists pre, path = (pre ++ ".scss")%string).
  { unfold Rules.applies, Rules.scss. cbn [Rules.test Rules.exclude].
    change (Rules.anyMatch [] path) with false. cbn [negb]. rewrite andb_true_r.
    apply (anyMatch_suffix ".scss"). reflexivity. }
  split; [exact Hcss|]. split; [exact Hscss|].
  apply not_true_is_false. intros H. apply andb_true_iff in H as [H1 H2].
  apply Hcss in H1 as [pre1 E1]. apply Hscss in H2 as [pre2 E2].
  rewrite E1 in E2.
  change (pre2 ++ ".scss")%string with (pre2 ++ "." ++ "scss")%string in E2.
  rewrite <- append_assoc in E2.
  apply same_length_suffix in E2; [discriminate E2 | reflexivity].
Qed.

Lemma parse_workers :
  parse "\.(mjs|js|ts)$"
  = Some (Seq (Chr ".")
            (Seq (Group (altOf (map litSeq ["mjs"; "js"; "ts"])))
               (Seq EndAnchor Empty))).
Proof. reflexivity. Qed.

Lemma workers_matches (path : string) :
  Rules.applies Rules.workers path = true
  <-> exists pre n, In n ["mjs"; "js"; "ts"] /\ path = (pre ++ "." ++ n)%string.
Proof.
  unfold Rules.applies, Rules.workers. cbn [Rules.test Rules.exclude].
  change (Rules.anyMatch [] path) with false. cbn [negb]. rewrite andb_true_r.
  unfold Rules.anyMatch. cbn [existsb]. rewrite parse_workers, orb_false_r. split.
  - intros H. apply test_inv in H as (pre & t & -> & H).
    destruct t as [|c t]; [discriminate H|].
    cbn [run oneChar] in H. apply andb_true_iff in H as [Hc H].
    apply Ascii.eqb_eq in Hc; subst c.
    cbn [map] in H. rewrite run_altOf in H.
    apply existsb_exists in H as (r & Hr & H).
    apply (in_map_iff litSeq ["mjs"; "js"; "ts"]) in Hr as (n & <- & Hn).
    apply run_litSeq_inv in H as (s' & -> & H).
    destruct s'; [|discriminate H].
    exists pre, n. split; [exact Hn|]. now rewrite append_nil_r.
  - intros (pre & n & Hn & ->). apply test_intro.
    change ("." ++ n)%string with (String "." n).
    cbn [run oneChar map]. rewrite Ascii.eqb_refl. cbn [andb].
    rewrite run_altOf. apply existsb_exists.
    exists (litSeq n). split; [now apply (in_map litSeq ["mjs"; "js"; "ts"])|].
    rewrite <- (append_nil_r n) at 2. now rewrite run_litSeq.
Qed.

(** X25: the worker rule, declared before the ts rule, takes exactly the
    paths that end in [.mjs], [.js] or [.ts]; so it takes every file the
    ts rule takes and every file the js rule takes. *)
Theorem workers_rule_covers_scripts (path : string) :
  (Rules.applies Rules.workers path = true
   <-> exists pre n, In n ["mjs"; "js"; "ts"] /\ path = (pre ++ "." ++ n)%string)
  /\ (Rules.applies Rules.ts path = true -> Rules.applies Rules.workers path = true)
  /\ (Rules.applies Rules.js path = true -> Rules.applies Rules.workers path = true).
Proof.
  split; [apply workers_matches|]. split.
  - intros H. apply workers_matches.
    unfold Rules.applies, Rules.ts in H. cbn [Rules.test Rules.exclude] in H.
    apply andb_true_iff in H as [H _].
    apply (anyMatch_suffix ".ts") in H as [pre ->]; [|reflexivity].
    exists pre, "ts". split; [simpl; tauto | reflexivity].
  - intros H. apply workers_matches.
    unfold Rules.applies, Rules.js in H. cbn [Rules.test Rules.exclude] in H.
    apply andb_true_iff in H as [H _].
    apply (anyMatch_suffix ".js") in H as [pre ->]; [|reflexivity].
    exists pre, "js". split; [simpl; tauto | reflexivity].
Qed.

(** X26: the js rule takes exactly the paths that end in [.js] and do not
    mention node_modules anywhere. *)
Theorem js_rule_skips_node_modules (path : string) :
  Rules.applies Rules.js path = true
  <-> (exists pre, path = (pre ++ ".js")%string)
      /\ JS.includes path "node_modules" = false.
Proof.
  unfold Rules.applies, Rules.js. cbn [Rules.test Rules.exclude].
  rewrite andb_true_iff, negb_true_iff.
  assert (E : Rules.anyMatch ["node_modules"] path = JS.includes path "node_modules").
  { unfold Rules.anyMatch. cbn [existsb]. rewrite orb_false_r.
    change (parse "node_modules") with (Some (seqOf (lit "node_modules"))).
    apply test_literal. }
  rewrite E.
  pose proof (anyMatch_suffix ".js" path eq_refl) as H.
  change (String "\" (".js" ++ "$")) with "\.js$" in H. now rewrite H.
Qed.

End RuleProperties.
